(** * VideoLM deployment script (infra/__main__.py)

    A shallow embedding of the Pulumi program that packages the custom
    execution environment and the application sources of VideoLM.

    The script is a straight line of effects: it zips the directory
    [infra/custom_environment], hashes the archive, declares an execution
    environment, selects the project files to upload, declares the
    application source and the application, and exports their identifiers.
    The file system, the provisioning engine's registry and the stack
    outputs are the state the script threads through; a Python exception
    is a [Raise].  *)

From Stdlib Require Import ZArith Lia.
From Stdlib Require Import Strings.String Strings.Ascii Strings.Byte.
From stdpp Require Import base option list strings gmap.

Local Open Scope string_scope.
Local Open Scope list_scope.

(** ** pathlib *)

(** An absolute POSIX path, by its components below the root: the path
    [/a/b] is ["a"; "b"].  [Path(__file__)] of a main module is absolute,
    and every path the script builds descends from it. *)
Abbreviation Path := (list string).

Module pathlib.

(** [PurePath.parts]: the anchor, then the components. *)
Definition parts (p : Path) : list string := "/" :: p.

(** [PurePath.name]: the last component, empty for the root. *)
Definition name (p : Path) : string := List.last p "".

(** [PurePath.parent]: the root is its own parent. *)
Definition parent (p : Path) : Path := List.removelast p.

(** [p / child]. *)
Definition joinpath (p : Path) (child : string) : Path := p ++ [child].

(** [PurePath.as_posix] of an absolute path. *)
Definition as_posix (p : Path) : string := "/" ++ String.concat "/" p.

(** [PurePath.as_posix] of a relative path, given by its components;
    the empty relative path prints as a dot. *)
Definition rel_as_posix (r : list string) : string :=
  match r with
  | [] => "."
  | _ => String.concat "/" r
  end.

(** [f.relative_to(base)]: the components of [f] below [base];
    [None] stands for the [ValueError] of a path outside [base]. *)
Fixpoint relative_to (f base : Path) {struct base} : option (list string) :=
  match base with
  | [] => Some f
  | b :: base' =>
      match f with
      | [] => None
      | x :: f' => if String.eqb x b then relative_to f' base' else None
      end
  end.

End pathlib.

Infix "//" := pathlib.joinpath (at level 40, left associativity).

(** ** The file system *)

(** A time broken down as [time.localtime] does; [zipfile] keeps the
    first six fields. *)
Record struct_time := {
  tm_year : Z;
  tm_mon : Z;
  tm_mday : Z;
  tm_hour : Z;
  tm_min : Z;
  tm_sec : Z
}.

(** What [os.stat] reports of a file and [ZipInfo.from_file] keeps: the
    modification time, in local time, and the mode bits. *)
Record stat_result := { st_mtime : struct_time; st_mode : Z }.

(** A directory lists its entries in the order [os.scandir] yields them.
    [Special] is anything that is neither a regular file nor a directory. *)
#[warnings="-register-all"]
Inductive node :=
| File (st : stat_result) (data : list byte)
| Dir (entries : list (string * node))
| Special.

(** The first entry of a listing under a name. *)
Fixpoint scan (name : string) (es : list (string * node)) : option node :=
  match es with
  | [] => None
  | (k, v) :: es' => if String.eqb k name then Some v else scan name es'
  end.

(** The node a path leads to from [n]. *)
Fixpoint resolve (n : node) (p : list string) : option node :=
  match p with
  | [] => Some n
  | x :: p' =>
      match n with
      | Dir es =>
          match scan x es with
          | Some c => resolve c p'
          | None => None
          end
      | _ => None
      end
  end.

Definition is_file (fs : node) (p : Path) : bool :=
  match resolve fs p with
  | Some (File _ _) => true
  | _ => false
  end.

Definition is_dir (fs : node) (p : Path) : bool :=
  match resolve fs p with
  | Some (Dir _) => true
  | _ => false
  end.

(** Replace the first entry under a name, or append a new one. *)
Fixpoint put (name : string) (n : node) (es : list (string * node))
  : list (string * node) :=
  match es with
  | [] => [(name, n)]
  | (k, v) :: es' =>
      if String.eqb k name then (name, n) :: es' else (k, v) :: put name n es'
  end.

(** ** Globbing: [Path.rglob("*")] and [Path.glob("**/*")]

    Both patterns compile to the recursive selector followed by the
    wildcard selector: every directory below the start, the start first
    and each directory before its sub-directories, and for each of them
    all its entries. Hidden files match. *)
Fixpoint iterate_directories (parent_path : Path) (n : node)
  : list (Path * list (string * node)) :=
  match n with
  | Dir es =>
      (parent_path, es)
        :: flat_map (fun e => iterate_directories (parent_path // fst e) (snd e)) es
  | _ => []
  end.

Definition select_wildcard (d : Path * list (string * node)) : list Path :=
  map (fun e => fst d // fst e) (snd d).

Definition walk (p : Path) (n : node) : list Path :=
  flat_map select_wildcard (iterate_directories p n).

(** A start that is not a directory yields nothing. *)
Definition rglob (fs : node) (p : Path) : list Path :=
  match resolve fs p with
  | Some n => walk p n
  | None => []
  end.

(** ** Exceptions and the script monad *)

Inductive exn :=
| OSError (errno : string) (p : Path)
| ValueError (msg : string)
| StructError (msg : string)
| ProviderError (msg : string).

Inductive result (A : Type) :=
| Ok (a : A)
| Raise (e : exn).
Arguments Ok {A} a.
Arguments Raise {A} e.

Definition result_bind {A B} (f : A -> result B) (r : result A) : result B :=
  match r with
  | Ok a => f a
  | Raise e => Raise e
  end.

#[global] Instance result_ret : MRet result := fun A a => Ok a.
#[global] Instance result_mbind : MBind result := fun A B f r => result_bind f r.

(** Writing a file at [p] below [n]; [whole] is the path the caller
    gave, for the exception. *)
Fixpoint write_at (whole : Path) (n : node) (p : list string)
    (st : stat_result) (data : list byte) : result node :=
  match n with
  | Dir es =>
      match p with
      | [] => Raise (OSError "EISDIR" whole)
      | [name] =>
          match scan name es with
          | Some (Dir _) => Raise (OSError "EISDIR" whole)
          | Some Special => Raise (OSError "ENXIO" whole)
          | _ => Ok (Dir (put name (File st data) es))
          end
      | d :: p' =>
          match scan d es with
          | Some c =>
              c' ← write_at whole c p' st data;
              Ok (Dir (put d c' es))
          | None => Raise (OSError "ENOENT" whole)
          end
      end
  | _ => Raise (OSError "ENOTDIR" whole)
  end.

(** [open(p, "wb")] followed by a write of [data]: the file is created or
    replaced; [st] is what the system then reports of it. *)
Definition write_file (fs : node) (p : Path) (st : stat_result)
    (data : list byte) : result node :=
  write_at p fs p st data.

(** [open(p, "rb").read()]. *)
Definition read_file (n : node) (p : Path) : result (list byte) :=
  match resolve n p with
  | Some (File _ data) => Ok data
  | Some (Dir _) => Raise (OSError "EISDIR" p)
  | Some Special => Raise (OSError "ENXIO" p)
  | None => Raise (OSError "ENOENT" p)
  end.

(** ** zipfile *)

(** A member of an archive: what [ZipInfo.from_file] records of the file
    (name, modification time, permission bits, compression method) and
    the file's bytes. *)
Record ZipMember := {
  filename : string;
  date_time : struct_time;
  external_attr : Z;
  compress_type : Z;
  file_data : list byte
}.

Definition ZIP_DEFLATED : Z := 8.

(** The two 16-bit time stamps of a member's header, as
    [ZipInfo.FileHeader] packs them: two-second resolution, years from
    1980. *)
Definition dosdate (dt : struct_time) : Z :=
  Z.lor (Z.lor (Z.shiftl (tm_year dt - 1980) 9) (Z.shiftl (tm_mon dt) 5))
        (tm_mday dt).

Definition dostime (dt : struct_time) : Z :=
  Z.lor (Z.lor (Z.shiftl (tm_hour dt) 11) (Z.shiftl (tm_min dt) 5))
        (tm_sec dt / 2).

(** [zipf.write(filename, arcname)] on a regular file: stat it, read it,
    and name the member by the POSIX form of [arcname].  A modification
    time before 1980 is refused when the member is created, one after
    2107 when its header is packed.  The script only calls it behind
    [is_file]; members for directories are not modelled. *)
Definition ZipFile_write (fs : node) (filename : Path) (arcname : list string)
  : result ZipMember :=
  match resolve fs filename with
  | Some (File st data) =>
      if (tm_year (st_mtime st) <? 1980)%Z then
        Raise (ValueError "ZIP does not support timestamps before 1980")
      else if (65535 <? dosdate (st_mtime st))%Z then
        Raise (StructError "ushort format requires 0 <= number <= 65535")
      else
        Ok {| filename := pathlib.rel_as_posix arcname;
              date_time := st_mtime st;
              external_attr := Z.shiftl (Z.land (st_mode st) 65535) 16;
              compress_type := ZIP_DEFLATED;
              file_data := data |}
  | Some _ => Raise (OSError "EINVAL" filename)
  | None => Raise (OSError "ENOENT" filename)
  end.

(** ** Pulumi resources *)

(** An output of a declared resource: known only once the engine has
    provisioned it, so the program handles it by reference. *)
Record Output := { of_resource : string; attribute : string }.

Record ApplicationSourceResourcesArgs := {
  resource_label : string;
  replicas : Z;
  session_affinity : bool
}.

Inductive Resource :=
| ExecutionEnvironment (resource_name : string) (programming_language : string)
    (use_cases : list string) (docker_context_path : string)
    (description : string)
| ApplicationSource (resource_name : string) (name : string)
    (files : list (string * string)) (base_environment_id : Output)
    (base_environment_version_id : Output)
    (resources : ApplicationSourceResourcesArgs)
| CustomApplication (resource_name : string) (name : string)
    (source_version_id : Output) (allow_auto_stopping : bool).

Definition resource_name_of (r : Resource) : string :=
  match r with
  | ExecutionEnvironment n _ _ _ _ => n
  | ApplicationSource n _ _ _ _ _ => n
  | CustomApplication n _ _ _ => n
  end.

(** ** The state of a run *)

Record world := {
  fs : node;
  registered : list Resource;
  stack_outputs : list (string * Output)
}.

Definition script (A : Type) : Type := world -> result (A * world).

#[global] Instance script_ret : MRet script := fun A a w => Ok (a, w).
#[global] Instance script_mbind : MBind script :=
  fun A B f m w =>
    match m w with
    | Ok (a, w') => f a w'
    | Raise e => Raise e
    end.

Definition get_fs : script node := fun w => Ok (fs w, w).

Definition lift {A} (r : result A) : script A :=
  fun w => match r with Ok a => Ok (a, w) | Raise e => Raise e end.

Definition from_option {A} (e : exn) (o : option A) : result A :=
  match o with
  | Some a => Ok a
  | None => Raise e
  end.

(** Write a file and keep the rest of the world. *)
Definition write_bytes (p : Path) (st : stat_result) (data : list byte)
  : script unit :=
  fun w =>
    match write_file (fs w) p st data with
    | Ok fs' =>
        Ok (tt, {| fs := fs';
                   registered := registered w;
                   stack_outputs := stack_outputs w |})
    | Raise e => Raise e
    end.

Definition read_bytes (p : Path) : script (list byte) :=
  fun w => match read_file (fs w) p with Ok b => Ok (b, w) | Raise e => Raise e end.

(** [pulumi.export(name, value)]. *)
Definition export (name : string) (value : Output) : script unit :=
  fun w =>
    Ok (tt, {| fs := fs w;
               registered := registered w;
               stack_outputs := stack_outputs w ++ [(name, value)] |}).

(** A [for] loop whose body either appends one item to a list or moves
    on to the next element; an exception in the body ends the loop. *)
Fixpoint for_each {A B} (body : A -> result (option B)) (l : list A)
    (acc : list B) : result (list B) :=
  match l with
  | [] => Ok acc
  | x :: l' =>
      match body x with
      | Ok (Some b) => for_each body l' (acc ++ [b])
      | Ok None => for_each body l' acc
      | Raise e => Raise e
      end
  end.

(** The items an iteration adds. *)
Definition from_option_list {B} (o : option B) : list B :=
  match o with
  | Some b => [b]
  | None => []
  end.

(** ** The script *)

Definition IGNORED_PARTS : gset string :=
  {[ ".venv"; "node_modules"; "dist"; "uploads"; ".git"; ".github";
     ".vscode"; ".idea"; "coverage"; ".pytest_cache"; "__pycache__" ]}.

(** The set literal the script tests file names against, twice. *)
Definition launcher_scripts : gset string :=
  {[ "build-app.sh"; "start-app.sh" ]}.

(** What the [with] block and the assignments leave bound at module level. *)
Record globals := {
  zipf : list ZipMember;
  docker_context_path : string;
  docker_context_hash : string;
  source_files : list (string * string)
}.

Section Script.

(** The directory that holds [infra/]; the script is
    [infra/__main__.py] in it. *)
Variable project_root : Path.

(** Imported from [datarobot_pulumi_utils]. *)
Variable PROJECT_NAME : string.
Variable CPU_8XL_id : string.

(** The libraries: the bytes [zipfile] writes for a list of members,
    and [hashlib.sha256(...).hexdigest()]. *)
Variable zip_bytes : list ZipMember -> list byte.
Variable sha256_hexdigest : list byte -> string.

(** What the system reports of a file the script has just written. *)
Variable fresh_stat : stat_result.

(** The provisioning engine may refuse a declaration, given the ones
    it already holds. *)
Variable engine : list Resource -> Resource -> option exn.

Definition __file__ : Path := project_root // "infra" // "__main__.py".

Definition BASE_DIR : Path := pathlib.parent __file__.
Definition env_dir : Path := BASE_DIR // "custom_environment".
Definition zip_path : Path := BASE_DIR // "custom_environment.zip".
Definition application_path : Path := pathlib.parent BASE_DIR.

(** Body of the archive loop, lines 17-20. *)
Definition archive_file (fs : node) (file_path : Path)
  : result (option ZipMember) :=
  if is_file fs file_path then
    arcname ← from_option (ValueError "not in the subpath")
                (pathlib.relative_to file_path env_dir);
    m ← ZipFile_write fs file_path arcname;
    Ok (Some m)
  else Ok None.

Definition archive_members (fs : node) : result (list ZipMember) :=
  for_each (archive_file fs) (rglob fs env_dir) [].

(** Body of the source file loop, lines 50-79. *)
Definition select_source (fs : node) (f : Path)
  : result (option (string * string)) :=
  if negb (is_file fs f) then Ok None
  else if existsb (fun part => bool_decide (part ∈ IGNORED_PARTS))
            (pathlib.parts f) then Ok None
  else if bool_decide ("infra" ∈ pathlib.parts f)
          && negb (bool_decide (pathlib.name f ∈ launcher_scripts))
  then Ok None
  else if bool_decide (pathlib.name f ∈ launcher_scripts)
  then Ok (Some (pathlib.as_posix f, pathlib.name f))
  else
    rel ← from_option (ValueError "not in the subpath")
            (pathlib.relative_to f application_path);
    Ok (Some (pathlib.as_posix f, pathlib.rel_as_posix rel)).

Definition select_source_files (fs : node) : result (list (string * string)) :=
  for_each (select_source fs) (rglob fs application_path) [].

(** Constructing a resource registers it with the engine; the handle
    the program keeps is the resource's name. *)
Definition declare (r : Resource) : script string :=
  fun w =>
    match engine (registered w) r with
    | Some e => Raise e
    | None =>
        Ok (resource_name_of r,
            {| fs := fs w;
               registered := registered w ++ [r];
               stack_outputs := stack_outputs w |})
    end.

(** The three declarations, lines 30-36, 81-92 and 94-99. *)
Definition exe_env_decl (docker_context_path docker_context_hash : string)
  : Resource :=
  ExecutionEnvironment
    ("[" ++ PROJECT_NAME ++ "]-exe-env")
    "other"
    ["customApplication"]
    docker_context_path
    ("Custom execution environment for VideoLM with hash "
       ++ docker_context_hash).

Definition app_source_decl (source_files : list (string * string))
    (exe_env : string) : Resource :=
  ApplicationSource
    ("[" ++ PROJECT_NAME ++ "]-app-source")
    ("[" ++ PROJECT_NAME ++ "]-app-source")
    source_files
    (Build_Output exe_env "id")
    (Build_Output exe_env "version_id")
    {| resource_label := CPU_8XL_id;
       replicas := 1;
       session_affinity := true |}.

Definition app_decl (app_source : string) : Resource :=
  CustomApplication
    ("[" ++ PROJECT_NAME ++ "]-app")
    ("[" ++ PROJECT_NAME ++ "]-app")
    (Build_Output app_source "version_id")
    false.

Definition main : script globals :=
  (* with zipfile.ZipFile(zip_path, "w", ZIP_DEFLATED) as zipf *)
  _ ← write_bytes zip_path fresh_stat [];
  fs0 ← get_fs;
  zipf ← lift (archive_members fs0);
  _ ← write_bytes zip_path fresh_stat (zip_bytes zipf);
  (* str(zip_path.resolve()): the path is absolute and has no links *)
  let docker_context_path := pathlib.as_posix zip_path in
  (* with open(zip_path, "rb") as _z *)
  _z ← read_bytes zip_path;
  let docker_context_hash := sha256_hexdigest _z in
  exe_env ← declare (exe_env_decl docker_context_path docker_context_hash);
  _ ← export "execution_environment_name" (Build_Output exe_env "name");
  _ ← export "execution_environment_id" (Build_Output exe_env "id");
  _ ← export "execution_environment_version_id"
        (Build_Output exe_env "version_id");
  fs1 ← get_fs;
  source_files ← lift (select_source_files fs1);
  app_source ← declare (app_source_decl source_files exe_env);
  app ← declare (app_decl app_source);
  _ ← export "app_source_id" (Build_Output app_source "id");
  _ ← export "app_source_version_id" (Build_Output app_source "version_id");
  _ ← export "app_id" (Build_Output app "id");
  _ ← export "app_url" (Build_Output app "application_url");
  mret {| zipf := zipf;
          docker_context_path := docker_context_path;
          docker_context_hash := docker_context_hash;
          source_files := source_files |}.

(** A run starts with nothing registered and nothing exported. *)
Definition run (fs0 : node) : result (globals * world) :=
  main {| fs := fs0; registered := []; stack_outputs := [] |}.

(** The operations of [main] after the hash that can raise, each with
    the results of those before it. *)
Inductive raises_after_hash (fs2 : node) (hash : string) (e : exn) : Prop :=
| raises_exe_env :
    engine [] (exe_env_decl (pathlib.as_posix zip_path) hash) = Some e ->
    raises_after_hash fs2 hash e
| raises_select :
    engine [] (exe_env_decl (pathlib.as_posix zip_path) hash) = None ->
    select_source_files fs2 = Raise e ->
    raises_after_hash fs2 hash e
| raises_app_source files :
    let exe_env := exe_env_decl (pathlib.as_posix zip_path) hash in
    engine [] exe_env = None ->
    select_source_files fs2 = Ok files ->
    engine [exe_env] (app_source_decl files (resource_name_of exe_env))
      = Some e ->
    raises_after_hash fs2 hash e
| raises_app files :
    let exe_env := exe_env_decl (pathlib.as_posix zip_path) hash in
    let app_source := app_source_decl files (resource_name_of exe_env) in
    engine [] exe_env = None ->
    select_source_files fs2 = Ok files ->
    engine [exe_env] app_source = None ->
    engine [exe_env; app_source] (app_decl (resource_name_of app_source))
      = Some e ->
    raises_after_hash fs2 hash e.

(** The operations of [main] that can raise: archiving, hashing, and
    the rest. *)
Inductive raises (fs0 : node) (e : exn) : Prop :=
| raises_open :
    write_file fs0 zip_path fresh_stat [] = Raise e ->
    raises fs0 e
| raises_archive fs1 :
    write_file fs0 zip_path fresh_stat [] = Ok fs1 ->
    archive_members fs1 = Raise e ->
    raises fs0 e
| raises_close fs1 zs :
    write_file fs0 zip_path fresh_stat [] = Ok fs1 ->
    archive_members fs1 = Ok zs ->
    write_file fs1 zip_path fresh_stat (zip_bytes zs) = Raise e ->
    raises fs0 e
| raises_read fs1 zs fs2 :
    write_file fs0 zip_path fresh_stat [] = Ok fs1 ->
    archive_members fs1 = Ok zs ->
    write_file fs1 zip_path fresh_stat (zip_bytes zs) = Ok fs2 ->
    read_file fs2 zip_path = Raise e ->
    raises fs0 e
| raises_later fs1 zs fs2 _z :
    write_file fs0 zip_path fresh_stat [] = Ok fs1 ->
    archive_members fs1 = Ok zs ->
    write_file fs1 zip_path fresh_stat (zip_bytes zs) = Ok fs2 ->
    read_file fs2 zip_path = Ok _z ->
    raises_after_hash fs2 (sha256_hexdigest _z) e ->
    raises fs0 e.

End Script.

(** ** Well-formed file systems *)

(** A file name holds no separator. *)
Fixpoint slash_free (s : string) : bool :=
  match s with
  | EmptyString => true
  | String c s' => negb (Ascii.eqb c "/") && slash_free s'
  end.

(** Within a directory names are distinct and free of separators. *)
Fixpoint well_formed (n : node) : bool :=
  match n with
  | Dir es =>
      bool_decide (NoDup (map fst es))
      && forallb (fun e => slash_free (fst e) && well_formed (snd e)) es
  | _ => true
  end.

#[global] Instance byte_eq_decision : EqDecision byte := Byte.byte_eq_dec.

(** Two trees with the same layout and the same file contents: the same
    names in the same order, the same bytes in each file; modification
    times and modes are not compared. *)
Fixpoint same_files (a b : node) : bool :=
  match a, b with
  | File _ d, File _ d' => bool_decide (d = d')
  | Dir es, Dir es' =>
      (fix go (es : list (string * node)) (es' : list (string * node)) : bool :=
         match es, es' with
         | [], [] => true
         | e :: r, e' :: r' =>
             String.eqb (fst e) (fst e') && same_files (snd e) (snd e')
             && go r r'
         | _, _ => false
         end) es es'
  | Special, Special => true
  | _, _ => false
  end.

(** ** The archive as a function of the directory it packs *)

(** What the archive loop makes of one path below the directory [n],
    given relative to it. *)
Definition archive_entry (n : node) (rel : list string)
  : result (option ZipMember) :=
  if is_file n rel then
    m ← ZipFile_write n rel rel;
    Ok (Some m)
  else Ok None.

(** The members the loop collects from what [env_dir] resolves to. *)
Definition archive_of_tree (sub : option node) : result (list ZipMember) :=
  match sub with
  | Some n => for_each (archive_entry n) (walk [] n) []
  | None => Ok []
  end.

(** The paths below a directory, relative to it, in the order of the walk. *)
Definition walk_below (sub : option node) : list (list string) :=
  match sub with
  | Some n => walk [] n
  | None => []
  end.

(** The time stamps of a member's header. *)
Definition stamp (m : ZipMember) : Z * Z :=
  (dosdate (date_time m), dostime (date_time m)).

(** A member whose stamps fit the 16 bits the header has for each. *)
Definition stamps_fit (m : ZipMember) : Prop :=
  (0 <= dosdate (date_time m) < 65536)%Z
  /\ (0 <= dostime (date_time m) < 65536)%Z.

(** An archive's bytes hold the time stamps of its members: archives
    with the same bytes have members with the same stamps. *)
Definition keeps_stamps (zip_bytes : list ZipMember -> list byte) : Prop :=
  forall ms ms',
    Forall stamps_fit ms -> Forall stamps_fit ms' ->
    zip_bytes ms = zip_bytes ms' -> map stamp ms = map stamp ms'.

(** A launcher script below the project root, given by its path
    relative to it, that no exclusion applies to. *)
Definition listed_launcher (root : Path) (fs : node) (rel : list string)
  : Prop :=
  rel <> []
  /\ is_file fs (application_path root ++ rel) = true
  /\ (forall part,
        part ∈ pathlib.parts (application_path root ++ rel) ->
        part ∉ IGNORED_PARTS)
  /\ (pathlib.name (application_path root ++ rel) = "build-app.sh"
      \/ pathlib.name (application_path root ++ rel) = "start-app.sh").

(** ** A sample project *)

Module Sample.

Definition root : Path := ["home"; "dev"; "VideoLM"].

Definition noon : struct_time :=
  {| tm_year := 2025; tm_mon := 3; tm_mday := 14;
     tm_hour := 12; tm_min := 0; tm_sec := 0 |}.

Definition later : struct_time :=
  {| tm_year := 2025; tm_mon := 3; tm_mday := 14;
     tm_hour := 12; tm_min := 30; tm_sec := 0 |}.

Definition st (t : struct_time) : stat_result :=
  {| st_mtime := t; st_mode := 33188 |}.

Definition file (t : struct_time) (b : byte) : node := File (st t) [b].

Definition environment (t : struct_time) : node :=
  Dir [("Dockerfile", file t x01);
       ("conf", Dir [("nginx.conf", file t x02)]);
       ("socket", Special)].

Definition project (t : struct_time) : node :=
  Dir [("README.md", file noon x03);
       ("infra",
         Dir [("__main__.py", file noon x04);
              ("build-app.sh", file noon x05);
              ("start-app.sh", file noon x06);
              ("custom_environment", environment t)]);
       ("server",
         Dir [("app.py", file noon x07);
              ("build-app.sh", file noon x08);
              ("__pycache__", Dir [("app.pyc", file noon x09)])]);
       ("node_modules", Dir [("left-pad.js", file noon x0a)])].

(** The file system around a project whose environment files were
    last modified at [t]. *)
Definition disk (t : struct_time) : node :=
  Dir [("home", Dir [("dev", Dir [("VideoLM", project t)])])].

(** Stand-ins for the libraries: an encoding that keeps the four
    stamp bytes of each member's header, and a digest that is the last
    digit of a length. *)
Definition byte_of_Z (z : Z) : byte :=
  match Byte.of_N (Z.to_N (z mod 256)) with
  | Some b => b
  | None => x00
  end.

Definition toy_member (m : ZipMember) : list byte :=
  [byte_of_Z (dostime (date_time m));
   byte_of_Z (Z.shiftr (dostime (date_time m)) 8);
   byte_of_Z (dosdate (date_time m));
   byte_of_Z (Z.shiftr (dosdate (date_time m)) 8)].

Definition toy_zip_bytes (ms : list ZipMember) : list byte :=
  flat_map toy_member ms.

Definition toy_digest (b : list byte) : string :=
  String (Ascii.ascii_of_nat (48 + length b mod 10)) "".

Definition accept : list Resource -> Resource -> option exn :=
  fun _ _ => None.

Definition deploy (t : struct_time) : result (globals * world) :=
  run root "videolm" "cpu.8xlarge" toy_zip_bytes toy_digest (st later)
      accept (disk t).

(** What a run leaves when the environment files date from noon. *)
Definition final_globals : globals :=
  Eval vm_compute in
    match deploy noon with
    | Ok (g, _) => g
    | Raise _ => {| zipf := []; docker_context_path := "";
                    docker_context_hash := ""; source_files := [] |}
    end.

Definition final_world : world :=
  Eval vm_compute in
    match deploy noon with
    | Ok (_, w) => w
    | Raise _ => {| fs := Special; registered := []; stack_outputs := [] |}
    end.

(** A disk without the project. *)
Definition empty_disk : node := Dir [("home", Dir [])].

(** Another disk, with the same environment files and little else. *)
Definition other_root : Path := ["srv"; "VideoLM"].

Definition other_disk : node :=
  Dir [("srv",
        Dir [("VideoLM",
              Dir [("infra",
                    Dir [("custom_environment", environment noon)])])])].

Definition other_deploy : result (globals * world) :=
  run other_root "staging" "cpu.small" toy_zip_bytes toy_digest (st noon)
      accept other_disk.

Definition other_globals : globals :=
  Eval vm_compute in
    match other_deploy with
    | Ok (g, _) => g
    | Raise _ => {| zipf := []; docker_context_path := "";
                    docker_context_hash := ""; source_files := [] |}
    end.

Definition other_world : world :=
  Eval vm_compute in
    match other_deploy with
    | Ok (_, w) => w
    | Raise _ => {| fs := Special; registered := []; stack_outputs := [] |}
    end.

End Sample.

(** ** Further notions *)

(** Two trees with the same names and kinds of entries, in the same
    order; file contents, modification times and modes are not compared. *)
Fixpoint same_layout (a b : node) : bool :=
  match a, b with
  | File _ _, File _ _ => true
  | Dir es, Dir es' =>
      (fix go (es : list (string * node)) (es' : list (string * node)) : bool :=
         match es, es' with
         | [], [] => true
         | e :: r, e' :: r' =>
             String.eqb (fst e) (fst e') && same_layout (snd e) (snd e')
             && go r r'
         | _, _ => false
         end) es es'
  | Special, Special => true
  | _, _ => false
  end.


(** A modification time [zipfile] takes. *)
Definition stamp_ok (st : stat_result) : bool :=
  negb (tm_year (st_mtime st) <? 1980)%Z
  && negb (65535 <? dosdate (st_mtime st))%Z.

(** The resources whose outputs a declaration is given. *)
Definition references (r : Resource) : list string :=
  match r with
  | ExecutionEnvironment _ _ _ _ _ => []
  | ApplicationSource _ _ _ env_id env_version_id _ =>
      [of_resource env_id; of_resource env_version_id]
  | CustomApplication _ _ version_id _ => [of_resource version_id]
  end.

(** ** More sample disks *)

Module Checkout.

(** The sample project, checked out below a directory called [dist]. *)
Definition root : Path := ["srv"; "dist"; "VideoLM"].

Definition disk : node :=
Dir [("srv", Dir [("dist", Dir [("VideoLM", Sample.project Sample.noon)])])].

(** The sample project without its [custom_environment] directory. *)
Definition bare_disk : node :=
Dir [("home",
      Dir [("dev",
            Dir [("VideoLM",
                  Dir [("README.md", Sample.file Sample.noon x03);
                       ("infra",
                        Dir [("__main__.py", Sample.file Sample.noon x04)])])])])].

(** A second run, later, on the disk the sample run left. *)
Definition again : result (globals * world) :=
run Sample.root "videolm" "cpu.8xlarge" Sample.toy_zip_bytes
    Sample.toy_digest (Sample.st Sample.noon) Sample.accept
    (fs Sample.final_world).

Definition again_globals : globals :=
Eval vm_compute in
  match again with
  | Ok (g, _) => g
  | Raise _ => {| zipf := []; docker_context_path := "";
                  docker_context_hash := ""; source_files := [] |}
  end.

Definition again_world : world :=
Eval vm_compute in
  match again with
  | Ok (_, w) => w
  | Raise _ => {| fs := Special; registered := []; stack_outputs := [] |}
  end.


End Checkout.

(** * Properties *)

(** ** Induction on file-system trees *)

Lemma node_tree_ind (P : node -> Prop) :
  (forall st data, P (File st data)) ->
  (forall es, Forall (fun e => P (snd e)) es -> P (Dir es)) ->
  P Special ->
  forall n, P n.
Proof.
  intros HF HD HS.
  fix IH 1.
  intros [st data | es | ].
  - apply HF.
  - apply HD. induction es as [| e es IHes].
    + constructor.
    + constructor; [apply IH | exact IHes].
  - exact HS.
Qed.

(** ** pathlib *)

Lemma parent_joinpath p x : pathlib.parent (p // x) = p.
Proof. apply removelast_last. Qed.

Lemma name_joinpath p x : pathlib.name (p // x) = x.
Proof. apply last_last. Qed.

Lemma BASE_DIR_eq root : BASE_DIR root = root // "infra".
Proof. unfold BASE_DIR, __file__. apply parent_joinpath. Qed.

Lemma application_path_eq root : application_path root = root.
Proof. unfold application_path. rewrite BASE_DIR_eq. apply parent_joinpath. Qed.

Lemma zip_path_eq root :
  zip_path root = root ++ ["infra"; "custom_environment.zip"].
Proof.
  unfold zip_path. rewrite BASE_DIR_eq. unfold pathlib.joinpath.
  by rewrite <- app_assoc.
Qed.

Lemma relative_to_app base rel : pathlib.relative_to (base ++ rel) base = Some rel.
Proof.
  induction base as [| b base IH]; [done |].
  simpl. by rewrite String.eqb_refl.
Qed.

(** ** Lookup *)

Lemma scan_Some_elem name es c : scan name es = Some c -> (name, c) ∈ es.
Proof.
  induction es as [| [k v] es IH]; [done |].
  simpl. destruct (String.eqb_spec k name) as [-> | Hne].
  - intros [= ->]. left.
  - intros H. right. by apply IH.
Qed.

Lemma scan_NoDup name es c :
  NoDup (map fst es) -> (name, c) ∈ es -> scan name es = Some c.
Proof.
  induction es as [| [k v] es IH]; [by intros _ ?%elem_of_nil |].
  simpl. intros [Hk Hnd]%NoDup_cons [[= -> ->] | Hin]%elem_of_cons.
  - by rewrite String.eqb_refl.
  - destruct (String.eqb_spec k name) as [-> | Hne].
    + exfalso. apply Hk. apply list_elem_of_fmap. by exists (name, c).
    + by apply IH.
Qed.

Lemma resolve_app n p q :
  resolve n (p ++ q) = resolve n p ≫= fun m => resolve m q.
Proof.
  revert n. induction p as [| x p IH]; intros n; [done |].
  simpl. destruct n as [| es |]; try done.
  destruct (scan x es); [apply IH | done].
Qed.

(** ** Well-formedness *)

Lemma well_formed_Dir es :
  well_formed (Dir es) = true <->
  NoDup (map fst es)
  /\ Forall (fun e => slash_free (fst e) = true /\ well_formed (snd e) = true) es.
Proof.
  simpl. rewrite andb_true_iff, bool_decide_eq_true, forallb_forall, Forall_forall.
  split; intros [Hnd Hall]; split; try done.
  - intros e He. apply andb_true_iff. apply Hall. by apply list_elem_of_In.
  - intros e He. apply andb_true_iff. apply Hall. by apply list_elem_of_In.
Qed.

Lemma well_formed_resolve n p c :
  well_formed n = true -> resolve n p = Some c ->
  well_formed c = true /\ Forall (fun x => slash_free x = true) p.
Proof.
  revert n. induction p as [| x p IH]; intros n Hwf.
  - intros [= ->]. by split.
  - simpl. destruct n as [| es |]; try done.
    destruct (scan x es) as [c1 |] eqn:Hscan; [| done].
    apply well_formed_Dir in Hwf as [_ Hall].
    apply scan_Some_elem in Hscan.
    rewrite Forall_forall in Hall. destruct (Hall _ Hscan) as [Hx Hc1].
    intros Hres. destruct (IH _ Hc1 Hres) as [Hc Hp].
    split; [done | by constructor].
Qed.

(** ** The recursive walk *)

Lemma walk_Dir p es :
  walk p (Dir es)
  = map (fun e => p // fst e) es ++ flat_map (fun e => walk (p // fst e) (snd e)) es.
Proof.
  unfold walk. simpl. f_equal.
  induction es as [| e es IH]; [done |].
  simpl. by rewrite flat_map_app, IH.
Qed.

(** Whatever the walk yields lies strictly below its start. *)
Lemma walk_prefix n : forall p f,
  f ∈ walk p n -> exists rel, rel <> [] /\ f = p ++ rel.
Proof.
  induction n as [st data | es IH | ] using node_tree_ind; intros p f;
    [by intros ?%elem_of_nil | | by intros ?%elem_of_nil].
  rewrite walk_Dir, elem_of_app. intros [Hin | Hin].
  - apply list_elem_of_fmap in Hin as (e & -> & _).
    by exists [fst e].
  - apply list_elem_of_In, in_flat_map in Hin as (e & He & Hin).
    apply list_elem_of_In in He, Hin.
    rewrite Forall_forall in IH.
    destruct (IH e He _ _ Hin) as (rel & Hrel & ->).
    exists (fst e :: rel). split; [done |].
    unfold pathlib.joinpath. by rewrite <- app_assoc.
Qed.

(** Everything that can be looked up below the start is yielded. *)
Lemma walk_complete rel : forall n p,
  rel <> [] -> is_Some (resolve n rel) -> p ++ rel ∈ walk p n.
Proof.
  induction rel as [| x rel IH]; intros n p Hne Hres; [done |].
  simpl in Hres. destruct n as [| es |]; try by destruct Hres.
  destruct (scan x es) as [c |] eqn:Hscan; [| by destruct Hres].
  apply scan_Some_elem in Hscan.
  rewrite walk_Dir, elem_of_app.
  destruct rel as [| y rel].
  - left. apply list_elem_of_fmap. by exists (x, c).
  - right. apply list_elem_of_In, in_flat_map. exists (x, c).
    split; [by apply list_elem_of_In |].
    apply list_elem_of_In. simpl.
    replace (p ++ x :: y :: rel) with ((p // x) ++ y :: rel)
      by (unfold pathlib.joinpath; by rewrite <- app_assoc).
    by apply IH.
Qed.

(** In a well-formed tree, what the walk yields can be looked up. *)
Lemma walk_sound n : forall p f,
  well_formed n = true -> f ∈ walk p n ->
  exists rel, rel <> [] /\ f = p ++ rel /\ is_Some (resolve n rel).
Proof.
  induction n as [st data | es IH | ] using node_tree_ind; intros p f Hwf;
    [by intros ?%elem_of_nil | | by intros ?%elem_of_nil].
  apply well_formed_Dir in Hwf as [Hnd Hall].
  rewrite Forall_forall in IH, Hall.
  rewrite walk_Dir, elem_of_app. intros [Hin | Hin].
  - apply list_elem_of_fmap in Hin as ([k v] & -> & He).
    exists [k]. split; [done |]. split; [done |].
    simpl. by rewrite (scan_NoDup _ _ _ Hnd He).
  - apply list_elem_of_In, in_flat_map in Hin as ([k v] & He & Hin).
    apply list_elem_of_In in He, Hin.
    destruct (Hall _ He) as [_ Hv].
    destruct (IH _ He _ _ Hv Hin) as (rel & Hrel & -> & Hres).
    exists (k :: rel). split; [done |].
    split; [unfold pathlib.joinpath; by rewrite <- app_assoc |].
    simpl. by rewrite (scan_NoDup _ _ _ Hnd He).
Qed.

(** In a well-formed tree, the walk yields no path twice. *)
Lemma walk_NoDup n : forall p, well_formed n = true -> NoDup (walk p n).
Proof.
  induction n as [st data | es IH | ] using node_tree_ind; intros p Hwf;
    [constructor | | constructor].
  apply well_formed_Dir in Hwf as [Hnd Hall].
  rewrite walk_Dir. apply NoDup_app. split; [| split].
  - clear IH Hall. induction es as [| [k v] es IHes]; [constructor |].
    simpl in *. apply NoDup_cons in Hnd as [Hk Hnd].
    apply NoDup_cons. split; [| by apply IHes].
    intros Hin. apply Hk.
    apply list_elem_of_fmap in Hin as (e & Heq & He).
    apply app_inj_tail in Heq as [_ ->].
    apply list_elem_of_fmap. by exists e.
  - intros f Hf Hf'.
    apply list_elem_of_fmap in Hf as (e & -> & _).
    apply list_elem_of_In, in_flat_map in Hf' as (e' & _ & Hf').
    apply list_elem_of_In, walk_prefix in Hf' as (rel & Hrel & Heq).
    apply (f_equal length) in Heq. unfold pathlib.joinpath in Heq.
    rewrite !length_app in Heq. simpl in Heq.
    destruct rel; [done | simpl in Heq; lia].
  - induction es as [| [k v] es IHes]; [constructor |].
    simpl in *. apply NoDup_cons in Hnd as [Hk Hnd].
    apply Forall_cons in IH as [IHv IH].
    apply Forall_cons in Hall as [[_ Hv] Hall].
    apply NoDup_app. split; [by apply IHv | split; [| by apply IHes]].
    intros f Hf Hf'.
    apply walk_prefix in Hf as (rel & _ & ->).
    apply list_elem_of_In, in_flat_map in Hf' as (e' & He' & Hf').
    apply list_elem_of_In, walk_prefix in Hf' as (rel' & _ & Heq).
    unfold pathlib.joinpath in Heq. rewrite <- !app_assoc in Heq.
    apply app_inv_head in Heq. injection Heq as Hkk _.
    apply Hk. apply list_elem_of_fmap. exists e'.
    split; [done | by apply list_elem_of_In].
Qed.

(** ** The loop combinator *)

Lemma for_each_acc {A B} (body : A -> result (option B)) l acc :
  for_each body l acc
  = match for_each body l [] with
    | Ok out => Ok (acc ++ out)
    | Raise e => Raise e
    end.
Proof.
  revert acc. induction l as [| x l IH]; intros acc; simpl.
  - by rewrite app_nil_r.
  - destruct (body x) as [[b |] | e]; [| apply IH | done].
    rewrite (IH (acc ++ [b])), (IH [b]).
    destruct (for_each body l []); [| done].
    by rewrite <- app_assoc.
Qed.

Lemma for_each_cons {A B} (body : A -> result (option B)) x l :
  for_each body (x :: l) []
  = match body x with
    | Ok o =>
        match for_each body l [] with
        | Ok out => Ok (from_option_list o ++ out)
        | Raise e => Raise e
        end
    | Raise e => Raise e
    end.
Proof.
  simpl. destruct (body x) as [[b |] | e]; [| | done].
  - by rewrite for_each_acc.
  - by destruct (for_each body l []).
Qed.

Lemma for_each_ext {A B} (body body' : A -> result (option B)) l acc :
  (forall x, x ∈ l -> body x = body' x) ->
  for_each body l acc = for_each body' l acc.
Proof.
  revert acc. induction l as [| x l IH]; intros acc Hext; [done |].
  simpl. rewrite <- (Hext x) by left.
  destruct (body x) as [[b |] | e]; [| | done];
    apply IH; intros y Hy; apply Hext; by right.
Qed.

Lemma for_each_map {A A' B} (f : A' -> A) (body : A -> result (option B)) l acc :
  for_each body (map f l) acc = for_each (fun x => body (f x)) l acc.
Proof.
  revert acc. induction l as [| x l IH]; intros acc; [done |].
  simpl. by destruct (body (f x)) as [[b |] | e].
Qed.


(** What a loop has collected: exactly the items its body produced. *)
Lemma for_each_elem {A B} (body : A -> result (option B)) l out b :
  for_each body l [] = Ok out ->
  b ∈ out <-> exists x, x ∈ l /\ body x = Ok (Some b).
Proof.
  revert out. induction l as [| x l IH]; intros out.
  - intros [= <-]. split; [by intros ?%elem_of_nil |].
    by intros (x & ?%elem_of_nil & _).
  - rewrite for_each_cons.
    destruct (body x) as [o | e] eqn:Hx; [| done].
    destruct (for_each body l []) as [out' | e] eqn:Hl; [| done].
    intros [= <-]. rewrite elem_of_app, (IH out' eq_refl). split.
    + intros [Hb | (y & Hy & Hby)].
      * exists x. split; [left |].
        destruct o as [b' |]; simpl in Hb;
          [apply list_elem_of_singleton in Hb as -> | by apply elem_of_nil in Hb].
        done.
      * exists y. split; [by right | done].
    + intros (y & [-> | Hy]%elem_of_cons & Hby).
      * left. rewrite Hx in Hby. injection Hby as ->. simpl. left.
      * right. by exists y.
Qed.

(** Two distinct elements of the input that both produce an item leave
    two items in the output, in the order of the input. *)
Lemma for_each_two {A B} (body : A -> result (option B)) l1 x l2 y l3 out bx by_ :
  for_each body (l1 ++ x :: l2 ++ y :: l3) [] = Ok out ->
  body x = Ok (Some bx) -> body y = Ok (Some by_) ->
  exists o1 o2 o3, out = o1 ++ bx :: o2 ++ by_ :: o3.
Proof.
  revert out. induction l1 as [| z l1 IH]; intros out.
  - simpl app. rewrite for_each_cons. intros Hout Hx Hy. rewrite Hx in Hout.
    destruct (for_each body (l2 ++ y :: l3) []) as [out' | e] eqn:Hl; [| done].
    injection Hout as <-.
    assert (by_ ∈ out') as Hin.
    { apply (for_each_elem _ _ _ _ Hl). exists y. split; [| done].
      apply elem_of_app. right. left. }
    apply list_elem_of_split in Hin as (o2 & o3 & ->).
    by exists [], o2, o3.
  - simpl app. rewrite for_each_cons. intros Hout Hx Hy.
    destruct (body z) as [o | e]; [| done].
    destruct (for_each body (l1 ++ x :: l2 ++ y :: l3) []) as [out' | e];
      [| done].
    injection Hout as <-.
    destruct (IH out' eq_refl Hx Hy) as (o1 & o2 & o3 & ->).
    exists (from_option_list o ++ o1), o2, o3. by rewrite <- app_assoc.
Qed.

(** ** Writing a file *)

Lemma scan_put_same x n es : scan x (put x n es) = Some n.
Proof.
  induction es as [| [k v] es IH]; simpl.
  - by rewrite String.eqb_refl.
  - destruct (String.eqb_spec k x) as [-> | Hne]; simpl.
    + by rewrite String.eqb_refl.
    + by destruct (String.eqb_spec k x).
Qed.

Lemma scan_put_other x y n es : x <> y -> scan y (put x n es) = scan y es.
Proof.
  intros Hxy. induction es as [| [k v] es IH]; simpl.
  - by destruct (String.eqb_spec x y).
  - destruct (String.eqb_spec k x) as [-> | Hne]; simpl.
    + by destruct (String.eqb_spec x y).
    + by rewrite IH.
Qed.

Lemma write_at_step whole es x y p' st data :
  write_at whole (Dir es) (x :: y :: p') st data
  = match scan x es with
    | Some c =>
        match write_at whole c (y :: p') st data with
        | Ok c' => Ok (Dir (put x c' es))
        | Raise e => Raise e
        end
    | None => Raise (OSError "ENOENT" whole)
    end.
Proof. done. Qed.

(** The two ways a write returns. *)
Lemma write_at_Ok whole n p st data n' :
  write_at whole n p st data = Ok n' ->
  exists es x,
    n = Dir es /\
    ((p = [x] /\ n' = Dir (put x (File st data) es)
      /\ (forall es', scan x es <> Some (Dir es')) /\ scan x es <> Some Special)
     \/ (exists p' c c', p = x :: p' /\ p' <> [] /\ scan x es = Some c
           /\ write_at whole c p' st data = Ok c' /\ n' = Dir (put x c' es))).
Proof.
  destruct p as [| x p']; destruct n as [| es |]; try done.
  destruct p' as [| y p']; [simpl | rewrite write_at_step].
  - destruct (scan x es) as [[| es' |] |] eqn:Hscan; try done;
      intros [= <-]; exists es, x; (split; [done |]); left; rewrite Hscan;
      by repeat split.
  - destruct (scan x es) as [c |] eqn:Hscan; [| done].
    destruct (write_at whole c (y :: p') st data) as [c' |] eqn:Hw; [| done].
    intros [= <-]. exists es, x. split; [done |]. right.
    by exists (y :: p'), c, c'.
Qed.

(** A file that was written is there to read. *)
Lemma write_at_resolve whole p : forall n st data n',
  write_at whole n p st data = Ok n' -> resolve n' p = Some (File st data).
Proof.
  induction p as [| x p IH]; intros n st data n' Hw;
    apply write_at_Ok in Hw
      as (es & y & -> & [(Hp & -> & _) | (p' & c & c' & Hp & Hne & Hscan & Hw & ->)]);
    try done.
  - injection Hp as -> ->. simpl. by rewrite scan_put_same.
  - injection Hp as -> ->. simpl. rewrite scan_put_same. by eapply IH.
Qed.

Lemma write_file_resolve n p st data n' :
  write_file n p st data = Ok n' -> resolve n' p = Some (File st data).
Proof. apply write_at_resolve. Qed.

(** Writing [q/a] leaves everything at and below a sibling [q/b] as it was. *)
Lemma write_at_resolve_sibling whole q : forall n a b r st data n',
  a <> b ->
  write_at whole n (q ++ [a]) st data = Ok n' ->
  resolve n' (q ++ b :: r) = resolve n (q ++ b :: r).
Proof.
  induction q as [| x q IH]; intros n a b r st data n' Hab Hw;
    apply write_at_Ok in Hw
      as (es & y & -> & [(Hp & -> & _) | (p' & c & c' & Hp & Hne & Hscan & Hw & ->)]).
  - injection Hp as ->. simpl. by rewrite scan_put_other.
  - injection Hp as -> <-. done.
  - simpl in Hp. injection Hp as -> Hq. by destruct q.
  - simpl in Hp. injection Hp as -> <-. simpl.
    rewrite scan_put_same, Hscan. by eapply IH.
Qed.

Lemma write_file_resolve_sibling q n a b r st data n' :
  a <> b ->
  write_file n (q ++ [a]) st data = Ok n' ->
  resolve n' (q ++ b :: r) = resolve n (q ++ b :: r).
Proof. apply write_at_resolve_sibling. Qed.

Lemma put_fst_elem x n es y :
  y ∈ map fst (put x n es) -> y = x \/ y ∈ map fst es.
Proof.
  induction es as [| [k v] es IH]; simpl.
  - intros ?%list_elem_of_singleton. by left.
  - destruct (String.eqb_spec k x) as [-> | Hne]; simpl.
    + intros [-> | H]%elem_of_cons; [by left | right; by right].
    + intros [-> | H]%elem_of_cons; [right; left |].
      destruct (IH H) as [-> | H']; [by left | right; by right].
Qed.

Lemma put_well_formed x n es :
  well_formed (Dir es) = true -> slash_free x = true -> well_formed n = true ->
  well_formed (Dir (put x n es)) = true.
Proof.
  rewrite !well_formed_Dir. intros [Hnd Hall] Hx Hn.
  induction es as [| [k v] es IH]; simpl.
  - split; [apply NoDup_singleton | by repeat constructor].
  - simpl in Hnd. apply NoDup_cons in Hnd as [Hk Hnd].
    apply Forall_cons in Hall as [[Hsk Hv] Hall].
    destruct (String.eqb_spec k x) as [-> | Hne]; simpl.
    + split; [by apply NoDup_cons | by constructor].
    + destruct (IH Hnd Hall) as [Hnd' Hall'].
      split; [| by constructor].
      apply NoDup_cons. split; [| done].
      intros [-> | H]%put_fst_elem; done.
Qed.

(** Writing a file under a valid name keeps the tree well-formed. *)
Lemma write_at_well_formed whole p : forall n st data n',
  well_formed n = true ->
  slash_free (pathlib.name p) = true ->
  write_at whole n p st data = Ok n' ->
  well_formed n' = true.
Proof.
  induction p as [| x p IH]; intros n st data n' Hwf Hname Hw;
    apply write_at_Ok in Hw
      as (es & y & -> & [(Hp & -> & _) | (p' & c & c' & Hp & Hne & Hscan & Hw & ->)]);
    try done.
  - injection Hp as -> ->. by apply put_well_formed.
  - injection Hp as -> ->.
    pose proof Hwf as [_ Hall]%well_formed_Dir.
    rewrite Forall_forall in Hall.
    destruct (Hall _ (scan_Some_elem _ _ _ Hscan)) as [Hx Hc].
    apply put_well_formed; [done | done |].
    eapply IH; [exact Hc | | exact Hw].
    destruct p' as [| z p']; [done |].
    exact Hname.
Qed.

Lemma write_file_well_formed n p st data n' :
  well_formed n = true ->
  slash_free (pathlib.name p) = true ->
  write_file n p st data = Ok n' ->
  well_formed n' = true.
Proof. apply write_at_well_formed. Qed.

(** ** POSIX strings of paths *)

Lemma append_nil (s : string) : ("" ++ s)%string = s.
Proof. reflexivity. Qed.

Lemma append_cons c (a s : string) :
  (String c a ++ s)%string = String c (a ++ s)%string.
Proof. reflexivity. Qed.

Lemma append_assoc (a b c : string) :
  ((a ++ b) ++ c = a ++ b ++ c)%string.
Proof.
  induction a as [| x a IH]; rewrite ?append_nil, ?append_cons; [done |].
  by rewrite IH.
Qed.

Lemma string_app_inv_head (s t t' : string) :
  (s ++ t = s ++ t')%string -> t = t'.
Proof.
  induction s as [| c s IH]; rewrite ?append_nil, ?append_cons, ?append_nil; [done |].
  intros [= H]. by apply IH.
Qed.

Lemma slash_free_cons c s :
  slash_free (String c s) = true -> c <> "/"%char /\ slash_free s = true.
Proof.
  simpl. intros [Hc Hs]%andb_true_iff. split; [| done].
  intros ->. by rewrite Ascii.eqb_refl in Hc.
Qed.

(** A separator after a name free of separators is found in one place. *)
Lemma slash_split a : forall b s t,
  slash_free a = true -> slash_free b = true ->
  (a ++ "/" ++ s = b ++ "/" ++ t)%string -> a = b /\ s = t.
Proof.
  induction a as [| c a IH]; intros [| c' b] s t Ha Hb;
    rewrite ?append_nil, ?append_cons, ?append_nil.
  - by intros [= ->].
  - intros [= <- _]. by destruct (slash_free_cons _ _ Hb).
  - intros [= -> _]. by destruct (slash_free_cons _ _ Ha).
  - intros [= -> H].
    apply slash_free_cons in Ha as [_ Ha]. apply slash_free_cons in Hb as [_ Hb].
    destruct (IH _ _ _ Ha Hb H) as [-> ->]. done.
Qed.

Lemma slash_absent a : forall b s,
  slash_free b = true -> (a ++ "/" ++ s)%string <> b.
Proof.
  induction a as [| c a IH]; intros [| c' b] s Hb;
    rewrite ?append_nil, ?append_cons, ?append_nil; try done.
  - intros [= <- _]. by destruct (slash_free_cons _ _ Hb).
  - intros [= -> H]. apply slash_free_cons in Hb as [_ Hb].
    exact (IH b s Hb H).
Qed.

Lemma concat_cons2 (x y : string) r :
  String.concat "/" (x :: y :: r)
  = (x ++ "/" ++ String.concat "/" (y :: r))%string.
Proof. done. Qed.

Lemma concat_slash_inj l1 : forall l2,
  Forall (fun x => slash_free x = true) l1 ->
  Forall (fun x => slash_free x = true) l2 ->
  l1 <> [] -> l2 <> [] ->
  String.concat "/" l1 = String.concat "/" l2 -> l1 = l2.
Proof.
  induction l1 as [| x l1 IH]; intros [| y l2] H1 H2 Hn1 Hn2; try done.
  apply Forall_cons in H1 as [Hx H1]. apply Forall_cons in H2 as [Hy H2].
  destruct l1 as [| x' l1]; destruct l2 as [| y' l2].
  - simpl. by intros ->.
  - rewrite concat_cons2. simpl String.concat at 1.
    intros H. symmetry in H. by apply slash_absent in H.
  - rewrite concat_cons2. simpl String.concat at 2.
    intros H. by apply slash_absent in H.
  - rewrite !concat_cons2. intros [-> H]%slash_split; [| done | done].
    f_equal. by apply IH.
Qed.

Lemma concat_app_cons l : forall (x : string) r,
  l <> [] ->
  String.concat "/" (l ++ x :: r)
  = (String.concat "/" l ++ "/" ++ String.concat "/" (x :: r))%string.
Proof.
  induction l as [| a l IH]; intros x r Hl; [done |].
  destruct l as [| b l].
  - done.
  - change ((a :: b :: l) ++ x :: r) with (a :: b :: (l ++ x :: r)).
    rewrite !concat_cons2.
    change (b :: l ++ x :: r) with ((b :: l) ++ x :: r).
    rewrite IH by done.
    by rewrite !append_assoc.
Qed.

(** Two paths below the same directory with the same POSIX string are
    the same path, when the names below that directory hold no separator. *)
Lemma as_posix_inj root a b :
  Forall (fun x => slash_free x = true) a ->
  Forall (fun x => slash_free x = true) b ->
  a <> [] -> b <> [] ->
  pathlib.as_posix (root ++ a) = pathlib.as_posix (root ++ b) -> a = b.
Proof.
  intros Ha Hb Hna Hnb. unfold pathlib.as_posix.
  intros H%string_app_inv_head.
  destruct root as [| r0 root]; [by apply concat_slash_inj |].
  destruct a as [| x a]; [done |]. destruct b as [| y b]; [done |].
  rewrite !concat_app_cons in H by done.
  apply string_app_inv_head, string_app_inv_head in H.
  by apply concat_slash_inj.
Qed.

(** ** The walk, relative to its start *)

Lemma walk_shift n : forall p q, walk (p ++ q) n = map (app p) (walk q n).
Proof.
  induction n as [st data | es IH | ] using node_tree_ind; intros p q;
    [done | | done].
  rewrite !walk_Dir, map_app, map_map. f_equal.
  - apply map_ext. intros e. unfold pathlib.joinpath. by rewrite app_assoc.
  - induction es as [| e es IHes]; [done |].
    apply Forall_cons in IH as [IHe IH].
    simpl. rewrite map_app, <- (IHes IH). f_equal.
    unfold pathlib.joinpath. rewrite <- app_assoc. apply IHe.
Qed.

Lemma rglob_walk_below fs p :
  rglob fs p = map (app p) (walk_below (resolve fs p)).
Proof.
  unfold rglob, walk_below. destruct (resolve fs p) as [n |]; [| done].
  rewrite <- (walk_shift n p []). by rewrite app_nil_r.
Qed.

Lemma is_file_below fs p n rel :
  resolve fs p = Some n -> is_file fs (p ++ rel) = is_file n rel.
Proof. intros H. unfold is_file. by rewrite resolve_app, H. Qed.

(** Nothing lies below a path that does not resolve to a directory. *)
Lemma is_file_below_None fs p rel :
  resolve fs p = None -> is_file fs (p ++ rel) = false.
Proof. intros H. unfold is_file. by rewrite resolve_app, H. Qed.

(** ** The archive loop *)

Section Archive.

Variable root : Path.

Lemma archive_file_below fs n rel :
  resolve fs (env_dir root) = Some n ->
  archive_file root fs (env_dir root ++ rel) = archive_entry n rel.
Proof.
  intros Hn. unfold archive_file, archive_entry.
  rewrite (is_file_below _ _ _ _ Hn), relative_to_app. simpl.
  unfold is_file, ZipFile_write. rewrite resolve_app, Hn. simpl.
  by destruct (resolve n rel) as [[] |].
Qed.

(** The archive depends on the file system only through what
    [env_dir] resolves to. *)
Lemma archive_members_subtree fs :
  archive_members root fs = archive_of_tree (resolve fs (env_dir root)).
Proof.
  unfold archive_members. rewrite rglob_walk_below, for_each_map.
  unfold archive_of_tree, walk_below.
  destruct (resolve fs (env_dir root)) as [n |] eqn:Hn; [| done].
  apply for_each_ext. intros rel _. by apply archive_file_below.
Qed.

End Archive.

(** The members correspond, in order, to the regular files of the walk. *)
Lemma archive_entries n : forall l out,
  for_each (archive_entry n) l [] = Ok out ->
  Forall2 (fun m rel => ZipFile_write n rel rel = Ok m)
          out (List.filter (is_file n) l).
Proof.
  induction l as [| rel l IH]; intros out.
  - intros [= <-]. constructor.
  - rewrite for_each_cons. unfold archive_entry at 1. simpl List.filter.
    destruct (is_file n rel) eqn:Hf.
    + destruct (ZipFile_write n rel rel) as [m | e] eqn:Hw; [| done].
      simpl. destruct (for_each (archive_entry n) l []) as [out' | e]; [| done].
      intros [= <-]. simpl. constructor; [done | by apply IH].
    + simpl. destruct (for_each (archive_entry n) l []) as [out' | e]; [| done].
      intros [= <-]. simpl. by apply IH.
Qed.

Lemma ZipFile_write_Ok n p arcname m :
  ZipFile_write n p arcname = Ok m ->
  filename m = pathlib.rel_as_posix arcname
  /\ read_file n p = Ok (file_data m)
  /\ exists st, resolve n p = Some (File st (file_data m))
       /\ date_time m = st_mtime st
       /\ external_attr m = Z.shiftl (Z.land (st_mode st) 65535) 16
       /\ compress_type m = ZIP_DEFLATED.
Proof.
  unfold ZipFile_write, read_file.
  destruct (resolve n p) as [[st data | |] |]; try done.
  destruct (tm_year (st_mtime st) <? 1980)%Z; [done |].
  destruct (65535 <? dosdate (st_mtime st))%Z; [done |].
  intros [= <-]. simpl. repeat split. by exists st.
Qed.

Lemma Forall2_filenames n zs rels :
  Forall2 (fun m rel => ZipFile_write n rel rel = Ok m) zs rels ->
  map filename zs = map pathlib.rel_as_posix rels.
Proof.
  induction 1 as [| m rel zs rels Hm _ IH]; [done |].
  simpl. f_equal; [| done]. by apply ZipFile_write_Ok in Hm as [-> _].
Qed.

Lemma NoDup_filter_bool {A} (f : A -> bool) l :
  NoDup l -> NoDup (List.filter f l).
Proof.
  induction 1 as [| x l Hx Hl IH]; simpl; [constructor |].
  destruct (f x); [| done].
  constructor; [| done].
  rewrite list_elem_of_In, filter_In, <- list_elem_of_In. by intros [? _].
Qed.

(** In a well-formed directory the loop makes one member per regular
    file, under a name no other member has. *)
Lemma archive_tree_spec n zs :
  well_formed n = true ->
  for_each (archive_entry n) (walk [] n) [] = Ok zs ->
  NoDup (List.filter (is_file n) (walk [] n))
  /\ (forall rel, rel ∈ List.filter (is_file n) (walk [] n)
                  <-> rel <> [] /\ is_file n rel = true)
  /\ Forall2 (fun m rel => ZipFile_write n rel rel = Ok m)
             zs (List.filter (is_file n) (walk [] n))
  /\ NoDup (map filename zs).
Proof.
  intros Hwf Hzs.
  assert (forall rel, rel ∈ List.filter (is_file n) (walk [] n)
                      <-> rel <> [] /\ is_file n rel = true) as Hmem.
  { intros rel. rewrite list_elem_of_In, filter_In, <- list_elem_of_In. split.
    - intros [Hin Hf]. split; [| done].
      by apply walk_prefix in Hin as (r & Hr & ->).
    - intros [Hne Hf]. split; [| done].
      apply (walk_complete rel n [] Hne).
      unfold is_file in Hf. by destruct (resolve n rel). }
  pose proof (archive_entries n _ _ Hzs) as Hall.
  assert (NoDup (List.filter (is_file n) (walk [] n))) as Hnd
    by (apply NoDup_filter_bool; by apply walk_NoDup).
  split_and!; [done .. |].
  rewrite (Forall2_filenames _ _ _ Hall).
  apply (NoDup_fmap_2_strong pathlib.rel_as_posix); [| done].
  intros r1 r2 [Hn1 Hf1]%Hmem [Hn2 Hf2]%Hmem Heq.
  unfold is_file in Hf1, Hf2.
  destruct (resolve n r1) as [c1 |] eqn:H1; [| done].
  destruct (resolve n r2) as [c2 |] eqn:H2; [| done].
  destruct (well_formed_resolve _ _ _ Hwf H1) as [_ Hs1].
  destruct (well_formed_resolve _ _ _ Hwf H2) as [_ Hs2].
  apply concat_slash_inj; [done .. |].
  destruct r1; [done |]. by destruct r2.
Qed.

Lemma read_file_below fs p n rel data :
  resolve fs p = Some n -> read_file n rel = Ok data ->
  read_file fs (p ++ rel) = Ok data.
Proof.
  intros Hn. unfold read_file. rewrite resolve_app, Hn. simpl.
  by destruct (resolve n rel) as [[] |].
Qed.

(** ** The source file loop *)

Lemma launcher_scripts_elem x :
  x ∈ launcher_scripts <-> x = "build-app.sh" \/ x = "start-app.sh".
Proof. unfold launcher_scripts. set_solver. Qed.

Lemma existsb_false {A} (f : A -> bool) l :
  existsb f l = false -> forall x, x ∈ l -> f x = false.
Proof.
  intros H x Hx. destruct (f x) eqn:Hfx; [| done].
  rewrite <- H. symmetry. apply existsb_exists. exists x.
  split; [by apply list_elem_of_In | done].
Qed.

Section Select.

Variable root : Path.

(** What an iteration that appends a pair has checked. *)
Lemma select_source_Some fs f a r :
  select_source root fs f = Ok (Some (a, r)) ->
  is_file fs f = true
  /\ a = pathlib.as_posix f
  /\ (forall part, part ∈ pathlib.parts f -> part ∉ IGNORED_PARTS)
  /\ ("infra" ∈ pathlib.parts f -> pathlib.name f ∈ launcher_scripts)
  /\ ((pathlib.name f ∈ launcher_scripts /\ r = pathlib.name f)
      \/ ((pathlib.name f ∉ launcher_scripts)
          /\ exists rel, pathlib.relative_to f root = Some rel
               /\ r = pathlib.rel_as_posix rel)).
Proof.
  unfold select_source. rewrite application_path_eq.
  destruct (is_file fs f); [| done]. simpl negb. cbv iota.
  destruct (existsb _ _) eqn:Hign; [done |].
  assert (forall part, part ∈ pathlib.parts f -> part ∉ IGNORED_PARTS) as Hparts.
  { intros part Hpart. pose proof (existsb_false _ _ Hign part Hpart) as H.
    by apply bool_decide_eq_false in H. }
  destruct (bool_decide (pathlib.name f ∈ launcher_scripts)) eqn:Hname.
  - rewrite andb_false_r. intros [= <- <-].
    apply bool_decide_eq_true in Hname. split_and!; [done .. |]. by left.
  - apply bool_decide_eq_false in Hname.
    rewrite andb_true_r.
    destruct (bool_decide ("infra" ∈ pathlib.parts f)) eqn:Hinfra; [done |].
    apply bool_decide_eq_false in Hinfra.
    destruct (pathlib.relative_to f root) as [rel |] eqn:Hrel; [| done].
    simpl. intros [= <- <-].
    split_and!; [done .. |]. right. split; [done |]. by exists rel.
Qed.


(** A launcher script that is not excluded is listed under its name. *)
Lemma select_source_launcher fs f :
  is_file fs f = true ->
  (forall part, part ∈ pathlib.parts f -> part ∉ IGNORED_PARTS) ->
  pathlib.name f ∈ launcher_scripts ->
  select_source root fs f = Ok (Some (pathlib.as_posix f, pathlib.name f)).
Proof.
  intros Hf Hparts Hname. unfold select_source. rewrite Hf. simpl negb. cbv iota.
  replace (existsb _ _) with false.
  - rewrite (bool_decide_eq_true_2 _ Hname). by rewrite andb_false_r.
  - symmetry. apply not_true_is_false. intros (part & Hin & Hdec)%existsb_exists.
    apply bool_decide_eq_true in Hdec.
    by apply (Hparts part); [apply list_elem_of_In |].
Qed.

(** The archive the script has just written is passed over. *)
Lemma select_source_zip fs : select_source root fs (zip_path root) = Ok None.
Proof.
  unfold select_source.
  destruct (negb _); [done |].
  destruct (existsb _ _); [done |].
  replace (bool_decide ("infra" ∈ pathlib.parts (zip_path root))) with true.
  - replace (pathlib.name (zip_path root)) with "custom_environment.zip"
      by (unfold zip_path; by rewrite name_joinpath).
    done.
  - symmetry. apply bool_decide_eq_true. rewrite zip_path_eq.
    unfold pathlib.parts. right. apply elem_of_app. right. left.
Qed.


End Select.

Lemma elem_of_two_split {A} (x y : A) l :
  x ∈ l -> y ∈ l -> x <> y ->
  exists l1 l2 l3, l = l1 ++ x :: l2 ++ y :: l3 \/ l = l1 ++ y :: l2 ++ x :: l3.
Proof.
  intros (l1 & l2 & ->)%list_elem_of_split Hy Hxy.
  apply elem_of_app in Hy as [Hy | Hy].
  - apply list_elem_of_split in Hy as (k1 & k2 & ->).
    exists k1, k2, l2. right. by rewrite <- app_assoc.
  - apply elem_of_cons in Hy as [-> | Hy]; [done |].
    apply list_elem_of_split in Hy as (k1 & k2 & ->).
    exists l1, k1, k2. by left.
Qed.

(** ** The run, step by step *)

Section Run.

Variable root : Path.
Variables PROJECT_NAME CPU_8XL_id : string.
Variable zip_bytes : list ZipMember -> list byte.
Variable sha256_hexdigest : list byte -> string.
Variable fresh_stat : stat_result.
Variable engine : list Resource -> Resource -> option exn.

Local Abbreviation zip := (zip_path root).
Local Abbreviation exe_env hash :=
  (exe_env_decl PROJECT_NAME (pathlib.as_posix zip) hash).
Local Abbreviation app_source hash files :=
  (app_source_decl PROJECT_NAME CPU_8XL_id files
     (resource_name_of (exe_env hash))).
Local Abbreviation app hash files :=
  (app_decl PROJECT_NAME (resource_name_of (app_source hash files))).
Local Abbreviation outputs hash files :=
  [("execution_environment_name",
     Build_Output (resource_name_of (exe_env hash)) "name");
   ("execution_environment_id",
     Build_Output (resource_name_of (exe_env hash)) "id");
   ("execution_environment_version_id",
     Build_Output (resource_name_of (exe_env hash)) "version_id");
   ("app_source_id",
     Build_Output (resource_name_of (app_source hash files)) "id");
   ("app_source_version_id",
     Build_Output (resource_name_of (app_source hash files)) "version_id");
   ("app_id", Build_Output (resource_name_of (app hash files)) "id");
   ("app_url",
     Build_Output (resource_name_of (app hash files)) "application_url")].
Local Abbreviation deploy :=
  (run root PROJECT_NAME CPU_8XL_id zip_bytes sha256_hexdigest fresh_stat
       engine).

(** The monadic program, written out as the sequence of its fallible
    operations. *)
Lemma run_unfold fs0 :
  deploy fs0
  = match write_file fs0 zip fresh_stat [] with
    | Raise e => Raise e
    | Ok fs1 =>
    match archive_members root fs1 with
    | Raise e => Raise e
    | Ok zs =>
    match write_file fs1 zip fresh_stat (zip_bytes zs) with
    | Raise e => Raise e
    | Ok fs2 =>
    match read_file fs2 zip with
    | Raise e => Raise e
    | Ok _z =>
    match engine [] (exe_env (sha256_hexdigest _z)) with
    | Some e => Raise e
    | None =>
    match select_source_files root fs2 with
    | Raise e => Raise e
    | Ok files =>
    match engine [exe_env (sha256_hexdigest _z)]
                 (app_source (sha256_hexdigest _z) files) with
    | Some e => Raise e
    | None =>
    match engine [exe_env (sha256_hexdigest _z);
                  app_source (sha256_hexdigest _z) files]
                 (app (sha256_hexdigest _z) files) with
    | Some e => Raise e
    | None =>
        Ok ({| zipf := zs;
               docker_context_path := pathlib.as_posix zip;
               docker_context_hash := sha256_hexdigest _z;
               source_files := files |},
            {| fs := fs2;
               registered :=
                 [exe_env (sha256_hexdigest _z);
                  app_source (sha256_hexdigest _z) files;
                  app (sha256_hexdigest _z) files];
               stack_outputs := outputs (sha256_hexdigest _z) files |})
    end end end end end end end end.
Proof.
  unfold run, main, mbind, script_mbind, write_bytes, get_fs, lift,
    read_bytes, declare, export, mret, script_ret.
  cbn [fs registered stack_outputs].
  destruct (write_file fs0 _ _ _) as [fs1 | e]; [| done].
  cbn [fs registered stack_outputs].
  destruct (archive_members root fs1) as [zs | e]; [| done].
  cbn [fs registered stack_outputs].
  destruct (write_file fs1 _ _ _) as [fs2 | e]; [| done].
  cbn [fs registered stack_outputs].
  destruct (read_file fs2 _) as [_z | e]; [| done].
  cbn [fs registered stack_outputs].
  destruct (engine [] _) as [e |]; [done |].
  cbn [fs registered stack_outputs app].
  destruct (select_source_files root fs2) as [files | e]; [| done].
  cbn [fs registered stack_outputs app].
  destruct (engine _ _) as [e |]; [done |].
  cbn [fs registered stack_outputs app].
  destruct (engine _ _) as [e |]; [done |].
  reflexivity.
Qed.

(** What a run that returned has done. *)
Lemma run_Ok fs0 g w :
  deploy fs0 = Ok (g, w) ->
  exists fs1,
    write_file fs0 zip fresh_stat [] = Ok fs1
    /\ archive_members root fs1 = Ok (zipf g)
    /\ write_file fs1 zip fresh_stat (zip_bytes (zipf g)) = Ok (fs w)
    /\ read_file (fs w) zip = Ok (zip_bytes (zipf g))
    /\ docker_context_path g = pathlib.as_posix zip
    /\ docker_context_hash g = sha256_hexdigest (zip_bytes (zipf g))
    /\ select_source_files root (fs w) = Ok (source_files g)
    /\ registered w
       = [exe_env (docker_context_hash g);
          app_source (docker_context_hash g) (source_files g);
          app (docker_context_hash g) (source_files g)]
    /\ stack_outputs w = outputs (docker_context_hash g) (source_files g).
Proof.
  rewrite run_unfold.
  destruct (write_file fs0 _ _ _) as [fs1 | e] eqn:Hopen; [| done].
  destruct (archive_members root fs1) as [zs | e] eqn:Hzs; [| done].
  destruct (write_file fs1 _ _ _) as [fs2 | e] eqn:Hclose; [| done].
  pose proof (write_file_resolve _ _ _ _ _ Hclose) as Hres.
  unfold read_file. rewrite Hres.
  destruct (engine [] _) as [e |]; [done |].
  destruct (select_source_files root fs2) as [files | e] eqn:Hsel; [| done].
  destruct (engine _ _) as [e |]; [done |].
  destruct (engine _ _) as [e |]; [done |].
  intros [= <- <-]. simpl. rewrite Hres. exists fs1. by split_and!.
Qed.

(** The first write leaves the environment directory as it was. *)
Lemma env_dir_untouched fs0 fs1 data rel :
  write_file fs0 zip fresh_stat data = Ok fs1 ->
  resolve fs1 (env_dir root ++ rel) = resolve fs0 (env_dir root ++ rel).
Proof.
  intros Hw. unfold zip_path, env_dir, pathlib.joinpath in *.
  rewrite <- !(app_assoc (BASE_DIR root)). simpl.
  eapply write_file_resolve_sibling; [| exact Hw]. done.
Qed.

(** Both writes keep a well-formed file system well-formed. *)
Lemma run_well_formed fs0 g w :
  well_formed fs0 = true -> deploy fs0 = Ok (g, w) ->
  well_formed (fs w) = true.
Proof.
  intros Hwf (fs1 & Hopen & _ & Hclose & _)%run_Ok.
  assert (slash_free (pathlib.name zip) = true) as Hname
    by (unfold zip_path; by rewrite name_joinpath).
  eapply write_file_well_formed; [| exact Hname | exact Hclose].
  eapply write_file_well_formed; [exact Hwf | exact Hname | exact Hopen].
Qed.

(** ** The archive *)

(** C1: the archive holds exactly one member for every regular file
    below [custom_environment] and nothing else, each under the file's
    path relative to that directory and with the file's bytes; no two
    members share a name. *)
Theorem C1_archive_entries fs0 g w :
  well_formed fs0 = true ->
  deploy fs0 = Ok (g, w) ->
  exists rels : list (list string),
    NoDup rels
    /\ (forall rel,
          rel ∈ rels
          <-> rel <> [] /\ is_file fs0 (env_dir root ++ rel) = true)
    /\ Forall2
         (fun m rel =>
            filename m = pathlib.rel_as_posix rel
            /\ read_file fs0 (env_dir root ++ rel) = Ok (file_data m))
         (zipf g) rels
    /\ NoDup (map filename (zipf g)).
Proof.
  intros Hwf (fs1 & Hopen & Hzs & _)%run_Ok.
  rewrite archive_members_subtree in Hzs.
  pose proof (env_dir_untouched _ _ _ [] Hopen) as Hsame.
  rewrite !app_nil_r in Hsame. rewrite Hsame in Hzs. clear Hsame.
  destruct (resolve fs0 (env_dir root)) as [n |] eqn:Hn; simpl in Hzs.
  - destruct (well_formed_resolve _ _ _ Hwf Hn) as [Hwfn _].
    destruct (archive_tree_spec _ _ Hwfn Hzs) as (Hnd & Hmem & Hall & Hnames).
    exists (List.filter (is_file n) (walk [] n)). split_and!; [done | | | done].
    + intros rel. by rewrite Hmem, (is_file_below _ _ _ _ Hn).
    + eapply Forall2_impl; [exact Hall |].
      intros m rel (Hname & Hread & _)%ZipFile_write_Ok.
      split; [done |]. by eapply read_file_below.
  - injection Hzs as <-. exists []. split_and!; [constructor | | constructor | constructor].
    intros rel. rewrite (is_file_below_None _ _ _ Hn).
    split; [by intros ?%elem_of_nil | by intros [_ ?]].
Qed.

(** C2: the hash is the SHA-256 hex digest of the bytes the archive
    file holds, which are the bytes written when the archive was
    closed, and the execution environment's description ends with it. *)
Theorem C2_content_hash fs0 g w :
  deploy fs0 = Ok (g, w) ->
  (exists fs1,
     write_file fs1 zip fresh_stat (zip_bytes (zipf g)) = Ok (fs w))
  /\ read_file (fs w) zip = Ok (zip_bytes (zipf g))
  /\ docker_context_hash g = sha256_hexdigest (zip_bytes (zipf g))
  /\ exists resource_name language use_cases path,
       ExecutionEnvironment resource_name language use_cases path
         ("Custom execution environment for VideoLM with hash "
            ++ docker_context_hash g)
       ∈ registered w.
Proof.
  intros (fs1 & _ & _ & Hclose & Hread & _ & Hhash & _ & Hreg & _)%run_Ok.
  split_and!; [by exists fs1 | done | done |].
  rewrite Hreg. do 4 eexists. left.
Qed.

(** ** The source file list *)

(** C3: every entry of the source file list is the pair of a file's
    absolute POSIX path and its path in the package: the bare file
    name for [build-app.sh] and [start-app.sh], the path relative to
    the project root otherwise. *)
Theorem C3_source_file_pairs fs0 g w :
  deploy fs0 = Ok (g, w) ->
  forall a r, (a, r) ∈ source_files g ->
  exists f rel,
    is_file (fs w) f = true
    /\ a = pathlib.as_posix f
    /\ pathlib.relative_to f (application_path root) = Some rel
    /\ rel <> []
    /\ (((pathlib.name f = "build-app.sh" \/ pathlib.name f = "start-app.sh")
         /\ r = pathlib.name f)
        \/ (pathlib.name f <> "build-app.sh"
            /\ pathlib.name f <> "start-app.sh"
            /\ r = pathlib.rel_as_posix rel)).
Proof.
  intros (_ & _ & _ & _ & _ & _ & _ & Hsel & _)%run_Ok a r Har.
  apply (for_each_elem _ _ _ _ Hsel) in Har as (f & Hf & Hbody).
  rewrite rglob_walk_below in Hf.
  apply list_elem_of_fmap in Hf as (rel & -> & Hrel).
  assert (rel <> []) as Hne.
  { unfold walk_below in Hrel. destruct (resolve _ _) as [n |];
      [| by apply elem_of_nil in Hrel].
    by apply walk_prefix in Hrel as (r' & Hr' & ->). }
  apply select_source_Some in Hbody as (Hfile & -> & _ & _ & Hcase).
  exists (application_path root ++ rel), rel.
  split_and!; [done | done | apply relative_to_app | done |].
  destruct Hcase as [[Hname ->] | (Hname & rel' & Hrel' & ->)].
  - left. by apply launcher_scripts_elem in Hname.
  - right. rewrite launcher_scripts_elem in Hname.
    rewrite application_path_eq, relative_to_app in Hrel'.
    injection Hrel' as <-. split_and!; [| | done]; intros ?; apply Hname; tauto.
Qed.

(** C4: no entry of the source file list is for a file with a path
    component in the exclusion set, and an entry for a file with a
    component [infra] is for [build-app.sh] or [start-app.sh]. *)
Theorem C4_source_files_filtered fs0 g w :
  deploy fs0 = Ok (g, w) ->
  forall a r, (a, r) ∈ source_files g ->
  exists f,
    is_file (fs w) f = true
    /\ a = pathlib.as_posix f
    /\ (forall part, part ∈ pathlib.parts f -> part ∉ IGNORED_PARTS)
    /\ ("infra" ∈ pathlib.parts f ->
        pathlib.name f = "build-app.sh" \/ pathlib.name f = "start-app.sh").
Proof.
  intros (_ & _ & _ & _ & _ & _ & _ & Hsel & _)%run_Ok a r Har.
  apply (for_each_elem _ _ _ _ Hsel) in Har as (f & _ & Hbody).
  apply select_source_Some in Hbody as (Hfile & -> & Hparts & Hinfra & _).
  exists f. split_and!; [done .. |].
  intros H. by apply launcher_scripts_elem, Hinfra.
Qed.

(** C9: a launcher script anywhere below the project root that no
    exclusion applies to is listed under its bare name, wherever it
    lies; two of them with the same name at different places leave
    two entries with the same path in the package. *)
Theorem C9_launcher_names_collide fs0 g w :
  deploy fs0 = Ok (g, w) ->
  (forall rel,
     listed_launcher root (fs w) rel ->
     (pathlib.as_posix (application_path root ++ rel),
      pathlib.name (application_path root ++ rel)) ∈ source_files g)
  /\ (forall rel1 rel2,
        listed_launcher root (fs w) rel1 ->
        listed_launcher root (fs w) rel2 ->
        rel1 <> rel2 ->
        pathlib.name (application_path root ++ rel1)
        = pathlib.name (application_path root ++ rel2) ->
        exists a1 a2 o1 o2 o3,
          source_files g
          = o1 ++ (a1, pathlib.name (application_path root ++ rel1))
               :: o2 ++ (a2, pathlib.name (application_path root ++ rel1))
               :: o3
          /\ ((a1 = pathlib.as_posix (application_path root ++ rel1)
               /\ a2 = pathlib.as_posix (application_path root ++ rel2))
              \/ (a1 = pathlib.as_posix (application_path root ++ rel2)
                  /\ a2 = pathlib.as_posix (application_path root ++ rel1)))).
Proof.
  intros (_ & _ & _ & _ & _ & _ & _ & Hsel & _)%run_Ok.
  assert (forall rel, listed_launcher root (fs w) rel ->
            application_path root ++ rel ∈ rglob (fs w) (application_path root)
            /\ select_source root (fs w) (application_path root ++ rel)
               = Ok (Some (pathlib.as_posix (application_path root ++ rel),
                           pathlib.name (application_path root ++ rel))))
    as Hlisted.
  { intros rel (Hne & Hfile & Hparts & Hname). split.
    - unfold rglob. unfold is_file in Hfile. rewrite resolve_app in Hfile.
      destruct (resolve (fs w) (application_path root)) as [n |]; [| done].
      apply walk_complete; [done |]. simpl in Hfile.
      by destruct (resolve n rel).
    - apply select_source_launcher; [done | done |].
      by apply launcher_scripts_elem. }
  split.
  - intros rel [Hin Hbody]%Hlisted.
    apply (for_each_elem _ _ _ _ Hsel). eauto.
  - intros rel1 rel2 [Hin1 Hbody1]%Hlisted [Hin2 Hbody2]%Hlisted Hne Hname.
    assert (application_path root ++ rel1 <> application_path root ++ rel2)
      as Hne' by (by intros ?%app_inv_head).
    unfold select_source_files in Hsel.
    destruct (elem_of_two_split _ _ _ Hin1 Hin2 Hne')
      as (l1 & l2 & l3 & [Hl | Hl]); rewrite Hl in Hsel.
    + destruct (for_each_two _ _ _ _ _ _ _ _ _ Hsel Hbody1 Hbody2)
        as (o1 & o2 & o3 & ->).
      rewrite <- Hname. do 5 eexists. split; [done |]. by left.
    + destruct (for_each_two _ _ _ _ _ _ _ _ _ Hsel Hbody2 Hbody1)
        as (o1 & o2 & o3 & ->).
      rewrite <- Hname. do 5 eexists. split; [done |]. by right.
Qed.

(** C10: in a well-formed file system the archive the script writes is
    no entry of the source file list: it lies in [infra] and is no
    launcher script. *)
Theorem C10_archive_not_listed fs0 g w :
  well_formed fs0 = true ->
  deploy fs0 = Ok (g, w) ->
  is_file (fs w) zip = true
  /\ select_source root (fs w) zip = Ok None
  /\ forall a r, (a, r) ∈ source_files g -> a <> pathlib.as_posix zip.
Proof.
  intros Hwf Hrun. pose proof (run_well_formed _ _ _ Hwf Hrun) as Hwf'.
  destruct (run_Ok _ _ _ Hrun)
    as (fs1 & _ & _ & Hclose & _ & _ & _ & Hsel & _).
  split_and!.
  - unfold is_file. by rewrite (write_file_resolve _ _ _ _ _ Hclose).
  - apply select_source_zip.
  - intros a r Har ->.
    apply (for_each_elem _ _ _ _ Hsel) in Har as (f & Hf & Hbody).
    pose proof Hbody as (_ & Heq & _)%select_source_Some.
    rewrite application_path_eq in Hf. unfold rglob in Hf.
    destruct (resolve (fs w) root) as [n |] eqn:Hn;
      [| by apply elem_of_nil in Hf].
    destruct (well_formed_resolve _ _ _ Hwf' Hn) as [Hwfn _].
    apply walk_sound in Hf as (rel & Hne & -> & [c Hc]); [| done].
    destruct (well_formed_resolve _ _ _ Hwfn Hc) as [_ Hrel].
    rewrite zip_path_eq in Heq.
    apply as_posix_inj in Heq; [| by repeat constructor | done ..].
    subst rel. rewrite <- zip_path_eq, select_source_zip in Hbody. done.
Qed.

(** ** The declarations *)

(** C5, as the script has it: a run declares three resources, an
    execution environment, an application source and a custom
    application, in this order. *)
Theorem C5_three_resources fs0 g w :
  deploy fs0 = Ok (g, w) ->
  registered w
  = [exe_env (docker_context_hash g);
     app_source (docker_context_hash g) (source_files g);
     app (docker_context_hash g) (source_files g)]
  /\ length (registered w) = 3.
Proof.
  intros (_ & _ & _ & _ & _ & _ & _ & _ & Hreg & _)%run_Ok.
  by rewrite Hreg.
Qed.

(** C8: the stack outputs are the execution environment's name, id and
    version id, the application source's id and version id, and the
    application's id and URL; every declared resource has its id
    among them. *)
Theorem C8_stack_outputs fs0 g w :
  deploy fs0 = Ok (g, w) ->
  stack_outputs w
  = [("execution_environment_name",
       Build_Output ("[" ++ PROJECT_NAME ++ "]-exe-env") "name");
     ("execution_environment_id",
       Build_Output ("[" ++ PROJECT_NAME ++ "]-exe-env") "id");
     ("execution_environment_version_id",
       Build_Output ("[" ++ PROJECT_NAME ++ "]-exe-env") "version_id");
     ("app_source_id",
       Build_Output ("[" ++ PROJECT_NAME ++ "]-app-source") "id");
     ("app_source_version_id",
       Build_Output ("[" ++ PROJECT_NAME ++ "]-app-source") "version_id");
     ("app_id", Build_Output ("[" ++ PROJECT_NAME ++ "]-app") "id");
     ("app_url",
       Build_Output ("[" ++ PROJECT_NAME ++ "]-app") "application_url")]
  /\ forall r, r ∈ registered w ->
       exists key,
         (key, Build_Output (resource_name_of r) "id") ∈ stack_outputs w.
Proof.
  intros (_ & _ & _ & _ & _ & _ & _ & _ & Hreg & Hout)%run_Ok.
  rewrite Hout, Hreg. split; [done |].
  intros r Hr. repeat (apply elem_of_cons in Hr as [-> | Hr]).
  - exists "execution_environment_id". right. left.
  - exists "app_source_id". do 3 right. left.
  - exists "app_id". do 5 right. left.
  - by apply elem_of_nil in Hr.
Qed.

(** ** Exceptions *)

(** C7: the run raises an exception exactly when one of its operations
    raises it, the operations before having returned: nothing catches
    it, nothing is retried, and nothing runs after it. *)
Theorem C7_exceptions_propagate fs0 e :
  raises root PROJECT_NAME CPU_8XL_id zip_bytes sha256_hexdigest fresh_stat
         engine fs0 e
  <-> deploy fs0 = Raise e.
Proof.
  rewrite run_unfold. split.
  - intros [Hopen | fs1 Hopen Hzs | fs1 zs Hopen Hzs Hclose
            | fs1 zs fs2 Hopen Hzs Hclose Hread
            | fs1 zs fs2 _z Hopen Hzs Hclose Hread Hlater].
    + by rewrite Hopen.
    + by rewrite Hopen, Hzs.
    + by rewrite Hopen, Hzs, Hclose.
    + by rewrite Hopen, Hzs, Hclose, Hread.
    + rewrite Hopen, Hzs, Hclose, Hread.
      destruct Hlater as [Hexe | Hexe Hsel | files exe Hexe Hsel Hsrc
                          | files exe src Hexe Hsel Hsrc Happ].
      * by rewrite Hexe.
      * by rewrite Hexe, Hsel.
      * subst exe. by rewrite Hexe, Hsel, Hsrc.
      * subst exe src. by rewrite Hexe, Hsel, Hsrc, Happ.
  - destruct (write_file fs0 _ _ _) as [fs1 | e1] eqn:Hopen;
      [| intros [= ->]; by apply raises_open].
    destruct (archive_members root fs1) as [zs | e1] eqn:Hzs;
      [| intros [= ->]; by eapply raises_archive].
    destruct (write_file fs1 _ _ _) as [fs2 | e1] eqn:Hclose;
      [| intros [= ->]; by eapply raises_close].
    destruct (read_file fs2 _) as [_z | e1] eqn:Hread;
      [| intros [= ->]; by eapply raises_read].
    intros Hlater. eapply raises_later; [done .. |].
    destruct (engine [] _) as [e1 |] eqn:Hexe;
      [injection Hlater as ->; by apply raises_exe_env |].
    destruct (select_source_files root fs2) as [files | e1] eqn:Hsel;
      [| injection Hlater as ->; by apply raises_select].
    destruct (engine [_] _) as [e1 |] eqn:Hsrc;
      [injection Hlater as ->; by eapply raises_app_source |].
    destruct (engine [_; _] _) as [e1 |] eqn:Happ; [| done].
    injection Hlater as ->. by eapply raises_app.
Qed.

End Run.

(** ** Two runs *)

(** C6, as the script has it: the archive is a function of what
    [custom_environment] resolves to, bytes, names, listing order,
    modification times and modes alike. Two runs that find the same
    there write the same archive and compute the same hash, wherever
    the projects lie and whatever else the disks hold. *)
Theorem C6_archive_determined
    rootA rootB nameA nameB cpuA cpuB zip_bytes sha256_hexdigest
    freshA freshB engineA engineB fsA fsB gA wA gB wB :
  resolve fsA (env_dir rootA) = resolve fsB (env_dir rootB) ->
  run rootA nameA cpuA zip_bytes sha256_hexdigest freshA engineA fsA
    = Ok (gA, wA) ->
  run rootB nameB cpuB zip_bytes sha256_hexdigest freshB engineB fsB
    = Ok (gB, wB) ->
  zipf gA = zipf gB
  /\ read_file (fs wA) (zip_path rootA) = Ok (zip_bytes (zipf gA))
  /\ read_file (fs wB) (zip_path rootB) = Ok (zip_bytes (zipf gA))
  /\ docker_context_hash gA = docker_context_hash gB.
Proof.
  intros Hsame
    (fsA1 & HopenA & HzsA & _ & HreadA & _ & HhashA & _)%run_Ok
    (fsB1 & HopenB & HzsB & _ & HreadB & _ & HhashB & _)%run_Ok.
  rewrite archive_members_subtree in HzsA, HzsB.
  pose proof (env_dir_untouched _ _ _ _ _ [] HopenA) as HA.
  pose proof (env_dir_untouched _ _ _ _ _ [] HopenB) as HB.
  rewrite !app_nil_r in HA, HB.
  rewrite HA, Hsame, <- HB, HzsB in HzsA. injection HzsA as Heq.
  by rewrite HhashA, HhashB, HreadA, HreadB, Heq.
Qed.

(** ** The stand-in encoding keeps the stamps *)

Lemma byte_of_Z_value z :
  Z.of_N (Byte.to_N (Sample.byte_of_Z z)) = (z mod 256)%Z.
Proof.
  unfold Sample.byte_of_Z.
  pose proof (Z.mod_pos_bound z 256 eq_refl) as Hb.
  destruct (Byte.of_N (Z.to_N (z mod 256))) as [b |] eqn:E.
  - apply Byte.to_of_N in E. rewrite E. lia.
  - apply Byte.of_N_None_iff in E. lia.
Qed.

Lemma two_bytes_inj (z z' : Z) :
  (0 <= z < 65536)%Z -> (0 <= z' < 65536)%Z ->
  Sample.byte_of_Z z = Sample.byte_of_Z z' ->
  Sample.byte_of_Z (Z.shiftr z 8) = Sample.byte_of_Z (Z.shiftr z' 8) ->
  z = z'.
Proof.
  intros Hz Hz' Hlo Hhi.
  apply (f_equal (fun b => Z.of_N (Byte.to_N b))) in Hlo, Hhi.
  rewrite !byte_of_Z_value in Hlo, Hhi.
  rewrite !Z.shiftr_div_pow2 in Hhi by lia.
  change (2 ^ 8)%Z with 256%Z in Hhi.
  rewrite (Z.mod_small (z / 256)), (Z.mod_small (z' / 256)) in Hhi
    by (split; [apply Z.div_pos; lia | apply Z.div_lt_upper_bound; lia]).
  rewrite (Z.div_mod z 256), (Z.div_mod z' 256) by lia. lia.
Qed.

(** The hypothesis of the counterexample to C6 can be met. *)
Lemma toy_zip_bytes_keeps_stamps : keeps_stamps Sample.toy_zip_bytes.
Proof.
  intros ms. induction ms as [| m ms IH]; intros [| m' ms'] Hfit Hfit';
    try done.
  apply Forall_cons in Hfit as [[Hd Ht] Hfit].
  apply Forall_cons in Hfit' as [[Hd' Ht'] Hfit'].
  unfold Sample.toy_zip_bytes. simpl.
  intros [= Ht1 Ht2 Hd1 Hd2 Hrest].
  f_equal; [| by apply IH].
  unfold stamp. f_equal; by apply two_bytes_inj.
Qed.

(** ** The sample project *)

Lemma sample_deploy :
  Sample.deploy Sample.noon = Ok (Sample.final_globals, Sample.final_world).
Proof. vm_compute. reflexivity. Qed.

(** C5 as stated fails: the run of the sample project declares three
    resources, not four. *)
Lemma C5_not_four_resources :
  Sample.deploy Sample.noon = Ok (Sample.final_globals, Sample.final_world)
  /\ length (registered Sample.final_world) <> 4.
Proof. split; [exact sample_deploy | vm_compute; discriminate]. Qed.

(** C6 as stated fails: two [custom_environment] directories with the
    same layout and the same file contents, whose files were last
    modified half an hour apart, get archives with different bytes,
    whatever encoding that keeps the members' time stamps writes them. *)
Lemma C6_same_files_other_bytes :
  resolve (Sample.disk Sample.noon) (env_dir Sample.root)
  = Some (Sample.environment Sample.noon)
  /\ resolve (Sample.disk Sample.later) (env_dir Sample.root)
     = Some (Sample.environment Sample.later)
  /\ same_files (Sample.environment Sample.noon)
       (Sample.environment Sample.later) = true
  /\ forall zip_bytes,
       keeps_stamps zip_bytes ->
       exists gA wA gB wB,
         run Sample.root "videolm" "cpu.8xlarge" zip_bytes Sample.toy_digest
             (Sample.st Sample.later) Sample.accept (Sample.disk Sample.noon)
           = Ok (gA, wA)
         /\ run Sample.root "videolm" "cpu.8xlarge" zip_bytes Sample.toy_digest
                (Sample.st Sample.later) Sample.accept (Sample.disk Sample.later)
            = Ok (gB, wB)
         /\ read_file (fs wA) (zip_path Sample.root) = Ok (zip_bytes (zipf gA))
         /\ read_file (fs wB) (zip_path Sample.root) = Ok (zip_bytes (zipf gB))
         /\ zip_bytes (zipf gA) <> zip_bytes (zipf gB).
Proof.
  split; [vm_compute; reflexivity |].
  split; [vm_compute; reflexivity |].
  split; [vm_compute; reflexivity |].
  intros zip_bytes Hkeeps.
  destruct (run _ _ _ _ _ _ _ (Sample.disk Sample.noon))
    as [[gA wA] | e] eqn:HA; [| vm_compute in HA; discriminate].
  destruct (run _ _ _ _ _ _ _ (Sample.disk Sample.later))
    as [[gB wB] | e] eqn:HB; [| vm_compute in HB; discriminate].
  exists gA, wA, gB, wB.
  destruct (run_Ok _ _ _ _ _ _ _ _ _ _ HA) as (_ & _ & _ & _ & HreadA & _).
  destruct (run_Ok _ _ _ _ _ _ _ _ _ _ HB) as (_ & _ & _ & _ & HreadB & _).
  split_and!; [done .. |].
  vm_compute in HA, HB. injection HA as <- _. injection HB as <- _.
  intros Heq. apply Hkeeps in Heq.
  - vm_compute in Heq. discriminate.
  - repeat constructor; vm_compute; discriminate.
  - repeat constructor; vm_compute; discriminate.
Qed.

(** ** The theorems at the sample project *)

(** The archive of the sample project. *)
Lemma C1_archive_entries_witness :
  well_formed (Sample.disk Sample.noon) = true
  /\ Sample.deploy Sample.noon = Ok (Sample.final_globals, Sample.final_world)
  /\ exists rels : list (list string),
       NoDup rels
       /\ (forall rel,
             rel ∈ rels
             <-> rel <> []
                 /\ is_file (Sample.disk Sample.noon)
                      (env_dir Sample.root ++ rel) = true)
       /\ Forall2
            (fun m rel =>
               filename m = pathlib.rel_as_posix rel
               /\ read_file (Sample.disk Sample.noon)
                    (env_dir Sample.root ++ rel) = Ok (file_data m))
            (zipf Sample.final_globals) rels
       /\ NoDup (map filename (zipf Sample.final_globals)).
Proof.
  split; [vm_compute; reflexivity |].
  split; [vm_compute; reflexivity |].
  apply (C1_archive_entries Sample.root "videolm" "cpu.8xlarge"
           Sample.toy_zip_bytes Sample.toy_digest (Sample.st Sample.later)
           Sample.accept (Sample.disk Sample.noon)
           Sample.final_globals Sample.final_world).
  - vm_compute. reflexivity.
  - vm_compute. reflexivity.
Defined.

(** The hash of the sample project's archive. *)
Lemma C2_content_hash_witness :
  Sample.deploy Sample.noon = Ok (Sample.final_globals, Sample.final_world)
  /\ read_file (fs Sample.final_world) (zip_path Sample.root)
     = Ok (Sample.toy_zip_bytes (zipf Sample.final_globals))
  /\ docker_context_hash Sample.final_globals
     = Sample.toy_digest (Sample.toy_zip_bytes (zipf Sample.final_globals)).
Proof.
  split; [vm_compute; reflexivity |].
  destruct (C2_content_hash Sample.root "videolm" "cpu.8xlarge"
              Sample.toy_zip_bytes Sample.toy_digest (Sample.st Sample.later)
              Sample.accept (Sample.disk Sample.noon)
              Sample.final_globals Sample.final_world)
    as (_ & Hread & Hhash & _).
  - vm_compute. reflexivity.
  - split; [exact Hread | exact Hhash].
Defined.

(** The source file list of the sample project. *)
Lemma C3_source_file_pairs_witness :
  Sample.deploy Sample.noon = Ok (Sample.final_globals, Sample.final_world)
  /\ forall a r, (a, r) ∈ source_files Sample.final_globals ->
     exists f rel,
       is_file (fs Sample.final_world) f = true
       /\ a = pathlib.as_posix f
       /\ pathlib.relative_to f (application_path Sample.root) = Some rel
       /\ rel <> []
       /\ (((pathlib.name f = "build-app.sh" \/ pathlib.name f = "start-app.sh")
            /\ r = pathlib.name f)
           \/ (pathlib.name f <> "build-app.sh"
               /\ pathlib.name f <> "start-app.sh"
               /\ r = pathlib.rel_as_posix rel)).
Proof.
  split; [vm_compute; reflexivity |].
  apply (C3_source_file_pairs Sample.root "videolm" "cpu.8xlarge"
           Sample.toy_zip_bytes Sample.toy_digest (Sample.st Sample.later)
           Sample.accept (Sample.disk Sample.noon)
           Sample.final_globals Sample.final_world).
  vm_compute. reflexivity.
Defined.

(** No excluded file is listed for the sample project. *)
Lemma C4_source_files_filtered_witness :
  Sample.deploy Sample.noon = Ok (Sample.final_globals, Sample.final_world)
  /\ forall a r, (a, r) ∈ source_files Sample.final_globals ->
     exists f,
       is_file (fs Sample.final_world) f = true
       /\ a = pathlib.as_posix f
       /\ (forall part, part ∈ pathlib.parts f -> part ∉ IGNORED_PARTS)
       /\ ("infra" ∈ pathlib.parts f ->
           pathlib.name f = "build-app.sh" \/ pathlib.name f = "start-app.sh").
Proof.
  split; [vm_compute; reflexivity |].
  apply (C4_source_files_filtered Sample.root "videolm" "cpu.8xlarge"
           Sample.toy_zip_bytes Sample.toy_digest (Sample.st Sample.later)
           Sample.accept (Sample.disk Sample.noon)
           Sample.final_globals Sample.final_world).
  vm_compute. reflexivity.
Defined.

(** The sample run declares three resources. *)
Lemma C5_three_resources_witness :
  Sample.deploy Sample.noon = Ok (Sample.final_globals, Sample.final_world)
  /\ length (registered Sample.final_world) = 3.
Proof.
  split; [vm_compute; reflexivity |].
  apply (C5_three_resources Sample.root "videolm" "cpu.8xlarge"
           Sample.toy_zip_bytes Sample.toy_digest (Sample.st Sample.later)
           Sample.accept (Sample.disk Sample.noon)
           Sample.final_globals Sample.final_world).
  vm_compute. reflexivity.
Defined.

(** Two projects on two disks with the same environment files. *)
Lemma C6_archive_determined_witness :
  resolve (Sample.disk Sample.noon) (env_dir Sample.root)
  = resolve Sample.other_disk (env_dir Sample.other_root)
  /\ Sample.deploy Sample.noon = Ok (Sample.final_globals, Sample.final_world)
  /\ Sample.other_deploy = Ok (Sample.other_globals, Sample.other_world)
  /\ zipf Sample.final_globals = zipf Sample.other_globals
  /\ docker_context_hash Sample.final_globals
     = docker_context_hash Sample.other_globals.
Proof.
  split; [vm_compute; reflexivity |].
  split; [vm_compute; reflexivity |].
  split; [vm_compute; reflexivity |].
  destruct (C6_archive_determined
              Sample.root Sample.other_root "videolm" "staging"
              "cpu.8xlarge" "cpu.small" Sample.toy_zip_bytes Sample.toy_digest
              (Sample.st Sample.later) (Sample.st Sample.noon)
              Sample.accept Sample.accept
              (Sample.disk Sample.noon) Sample.other_disk
              Sample.final_globals Sample.final_world
              Sample.other_globals Sample.other_world)
    as (Hzipf & _ & _ & Hhash).
  - vm_compute. reflexivity.
  - vm_compute. reflexivity.
  - vm_compute. reflexivity.
  - split; [exact Hzipf | exact Hhash].
Defined.

(** On a disk without the project, opening the archive raises and so
    does the run. *)
Lemma C7_exceptions_propagate_witness :
  write_file Sample.empty_disk (zip_path Sample.root) (Sample.st Sample.later) []
  = Raise (OSError "ENOENT" (zip_path Sample.root))
  /\ run Sample.root "videolm" "cpu.8xlarge" Sample.toy_zip_bytes
         Sample.toy_digest (Sample.st Sample.later) Sample.accept
         Sample.empty_disk
     = Raise (OSError "ENOENT" (zip_path Sample.root)).
Proof.
  split; [vm_compute; reflexivity |].
  apply (C7_exceptions_propagate Sample.root "videolm" "cpu.8xlarge"
           Sample.toy_zip_bytes Sample.toy_digest (Sample.st Sample.later)
           Sample.accept Sample.empty_disk).
  apply raises_open. vm_compute. reflexivity.
Defined.

(** The stack outputs of the sample run. *)
Lemma C8_stack_outputs_witness :
  Sample.deploy Sample.noon = Ok (Sample.final_globals, Sample.final_world)
  /\ forall r, r ∈ registered Sample.final_world ->
       exists key,
         (key, Build_Output (resource_name_of r) "id")
         ∈ stack_outputs Sample.final_world.
Proof.
  split; [vm_compute; reflexivity |].
  apply (C8_stack_outputs Sample.root "videolm" "cpu.8xlarge"
           Sample.toy_zip_bytes Sample.toy_digest (Sample.st Sample.later)
           Sample.accept (Sample.disk Sample.noon)
           Sample.final_globals Sample.final_world).
  vm_compute. reflexivity.
Defined.

(** The sample project has a launcher script under [server/] besides
    the one under [infra/]: both are listed as [build-app.sh]. *)
Lemma C9_launcher_names_collide_witness :
  Sample.deploy Sample.noon = Ok (Sample.final_globals, Sample.final_world)
  /\ listed_launcher Sample.root (fs Sample.final_world)
       ["server"; "build-app.sh"]
  /\ listed_launcher Sample.root (fs Sample.final_world)
       ["infra"; "build-app.sh"]
  /\ ("/home/dev/VideoLM/server/build-app.sh", "build-app.sh")
     ∈ source_files Sample.final_globals
  /\ exists a1 a2 o1 o2 o3,
       source_files Sample.final_globals
       = o1 ++ (a1, "build-app.sh") :: o2 ++ (a2, "build-app.sh") :: o3.
Proof.
  assert (forall rel,
            rel = ["server"; "build-app.sh"] \/ rel = ["infra"; "build-app.sh"] ->
            listed_launcher Sample.root (fs Sample.final_world) rel) as Hl.
  { intros rel [-> | ->];
      (split_and!; [done | vm_compute; reflexivity | | by left]);
      intros part Hpart; vm_compute in Hpart;
      repeat (apply elem_of_cons in Hpart as [-> | Hpart]);
      try (by vm_compute); by apply elem_of_nil in Hpart. }
  split; [vm_compute; reflexivity |].
  split; [apply Hl; by left |]. split; [apply Hl; by right |].
  destruct (C9_launcher_names_collide Sample.root "videolm" "cpu.8xlarge"
              Sample.toy_zip_bytes Sample.toy_digest (Sample.st Sample.later)
              Sample.accept (Sample.disk Sample.noon)
              Sample.final_globals Sample.final_world)
    as [Hlisted Hdup].
  - vm_compute. reflexivity.
  - split.
    + apply (Hlisted ["server"; "build-app.sh"]). apply Hl. by left.
    + destruct (Hdup ["server"; "build-app.sh"] ["infra"; "build-app.sh"])
        as (a1 & a2 & o1 & o2 & o3 & Heq & _);
        [apply Hl; by left | apply Hl; by right | done | done |].
      by exists a1, a2, o1, o2, o3.
Defined.

(** The sample run writes the archive and does not list it. *)
Lemma C10_archive_not_listed_witness :
  well_formed (Sample.disk Sample.noon) = true
  /\ Sample.deploy Sample.noon = Ok (Sample.final_globals, Sample.final_world)
  /\ is_file (fs Sample.final_world) (zip_path Sample.root) = true
  /\ forall a r, (a, r) ∈ source_files Sample.final_globals ->
       a <> pathlib.as_posix (zip_path Sample.root).
Proof.
  split; [vm_compute; reflexivity |].
  split; [vm_compute; reflexivity |].
  destruct (C10_archive_not_listed Sample.root "videolm" "cpu.8xlarge"
              Sample.toy_zip_bytes Sample.toy_digest (Sample.st Sample.later)
              Sample.accept (Sample.disk Sample.noon)
              Sample.final_globals Sample.final_world)
    as (Hfile & _ & Hnot).
  - vm_compute. reflexivity.
  - vm_compute. reflexivity.
  - split; [exact Hfile | exact Hnot].
Defined.

(** * Further properties of the script *)

(** ** The source file loop *)

Lemma for_each_all_None {A B} (body : A -> result (option B)) l :
  (forall x, x ∈ l -> body x = Ok None) -> for_each body l [] = Ok [].
Proof.
  induction l as [| x l IH]; intros Hnone; [done |].
  rewrite for_each_cons, (Hnone x) by left.
  rewrite IH; [done |]. intros y Hy. apply Hnone. by right.
Qed.

(** The keys of what a loop collects are distinct when the inputs are
    and the key of an item determines the input it came from. *)
Lemma for_each_NoDup {A B K} (body : A -> result (option B)) (key : B -> K)
    l out :
  NoDup l ->
  (forall x y b c, x ∈ l -> y ∈ l ->
     body x = Ok (Some b) -> body y = Ok (Some c) -> key b = key c -> x = y) ->
  for_each body l [] = Ok out ->
  NoDup (map key out).
Proof.
  revert out. induction l as [| x l IH]; intros out Hnd Hinj.
  - intros [= <-]. constructor.
  - apply NoDup_cons in Hnd as [Hx Hnd]. rewrite for_each_cons.
    destruct (body x) as [o | e] eqn:Hbx; [| done].
    destruct (for_each body l []) as [out' | e] eqn:Hl; [| done].
    intros [= <-].
    assert (NoDup (map key out')) as Hout'.
    { apply IH; [done | | done]. intros y z b c Hy Hz.
      apply Hinj; by right. }
    destruct o as [b |]; simpl; [| done].
    apply NoDup_cons. split; [| done].
    intros Hin. apply list_elem_of_fmap in Hin as (c & Hkey & Hc).
    apply (for_each_elem _ _ _ _ Hl) in Hc as (y & Hy & Hby).
    apply Hx. rewrite (Hinj x y b c); [done | left | by right | done ..].
Qed.

Section SelectMore.

Variable root : Path.

(** A file outside [infra] that is no launcher script and that no
  exclusion applies to is listed under its path below the root. *)
Lemma select_source_ordinary fs rel :
is_file fs (root ++ rel) = true ->
(forall part, part ∈ pathlib.parts (root ++ rel) -> part ∉ IGNORED_PARTS) ->
"infra" ∉ pathlib.parts (root ++ rel) ->
pathlib.name (root ++ rel) ∉ launcher_scripts ->
select_source root fs (root ++ rel)
= Ok (Some (pathlib.as_posix (root ++ rel), pathlib.rel_as_posix rel)).
Proof.
intros Hf Hparts Hinfra Hname. unfold select_source.
rewrite Hf, application_path_eq, relative_to_app. simpl negb. cbv iota.
replace (existsb _ _) with false.
- rewrite (bool_decide_eq_false_2 _ Hinfra), (bool_decide_eq_false_2 _ Hname).
  done.
- symmetry. apply not_true_is_false. intros (part & Hin & Hdec)%existsb_exists.
  apply bool_decide_eq_true in Hdec.
  by apply (Hparts part); [apply list_elem_of_In |].
Qed.

(** With an excluded name among the components of the project root,
  the loop passes every path over. *)
Lemma select_source_excluded_root fs rel part :
part ∈ root -> part ∈ IGNORED_PARTS ->
select_source root fs (root ++ rel) = Ok None.
Proof.
intros Hin Hign. unfold select_source.
destruct (negb _); [done |].
replace (existsb _ _) with true; [done |].
symmetry. apply existsb_exists. exists part. split.
- apply list_elem_of_In. unfold pathlib.parts. right.
  apply elem_of_app. by left.
- by apply bool_decide_eq_true.
Qed.


(** X2: the source file list is exactly this: one pair for every
  regular file strictly below the project root that has no excluded
  component in its absolute path and either is called [build-app.sh]
  or [start-app.sh], listed under that name, or has no component
  [infra], listed under its path below the root. *)
Theorem X2_source_files_exactly fs files :
select_source_files root fs = Ok files ->
forall a r,
  (a, r) ∈ files
  <-> exists rel,
        rel <> []
        /\ is_file fs (root ++ rel) = true
        /\ (forall part,
              part ∈ pathlib.parts (root ++ rel) -> part ∉ IGNORED_PARTS)
        /\ a = pathlib.as_posix (root ++ rel)
        /\ (((pathlib.name (root ++ rel) = "build-app.sh"
              \/ pathlib.name (root ++ rel) = "start-app.sh")
             /\ r = pathlib.name (root ++ rel))
            \/ (pathlib.name (root ++ rel) <> "build-app.sh"
                /\ pathlib.name (root ++ rel) <> "start-app.sh"
                /\ ("infra" ∉ pathlib.parts (root ++ rel))
                /\ r = pathlib.rel_as_posix rel)).
Proof.
intros Hsel a r. rewrite (for_each_elem _ _ _ _ Hsel). split.
- intros (f & Hf & Hbody).
  rewrite application_path_eq, rglob_walk_below in Hf.
  apply list_elem_of_fmap in Hf as (rel & -> & Hrel).
  assert (rel <> []) as Hne.
  { unfold walk_below in Hrel. destruct (resolve _ _) as [n |];
      [| by apply elem_of_nil in Hrel].
    by apply walk_prefix in Hrel as (r' & Hr' & ->). }
  apply select_source_Some in Hbody as (Hfile & -> & Hparts & Hinfra & Hcase).
  exists rel. split_and!; [done .. |].
  destruct Hcase as [[Hname ->] | (Hname & rel' & Hrel' & ->)].
  + left. by apply launcher_scripts_elem in Hname.
  + right. rewrite relative_to_app in Hrel'. injection Hrel' as <-.
    split_and!; [| | | done].
    * intros H. apply Hname, launcher_scripts_elem. by left.
    * intros H. apply Hname, launcher_scripts_elem. by right.
    * intros H. by apply Hname, Hinfra.
- intros (rel & Hne & Hfile & Hparts & -> & Hcase).
  exists (root ++ rel). split.
  + rewrite application_path_eq. unfold rglob.
    unfold is_file in Hfile. rewrite resolve_app in Hfile.
    destruct (resolve fs root) as [n |]; [| done].
    apply walk_complete; [done |]. simpl in Hfile.
    by destruct (resolve n rel).
  + destruct Hcase as [[Hname ->] | (Hn1 & Hn2 & Hinfra & ->)].
    * apply select_source_launcher; [done | done |].
      by apply launcher_scripts_elem.
    * apply select_source_ordinary; [done .. |].
      rewrite launcher_scripts_elem. tauto.
Qed.

(** X3: in a well-formed file system no file is listed twice: the
  absolute paths of the source file list are pairwise distinct. *)
Theorem X3_source_files_listed_once fs files :
well_formed fs = true ->
select_source_files root fs = Ok files ->
NoDup (map fst files).
Proof.
intros Hwf Hsel. unfold select_source_files in Hsel.
rewrite application_path_eq in Hsel.
assert (forall f, f ∈ rglob fs root ->
          exists rel, rel <> [] /\ f = root ++ rel
                      /\ Forall (fun x => slash_free x = true) rel) as Hbelow.
{ intros f Hf. unfold rglob in Hf.
  destruct (resolve fs root) as [n |] eqn:Hn; [| by apply elem_of_nil in Hf].
  destruct (well_formed_resolve _ _ _ Hwf Hn) as [Hwfn _].
  apply walk_sound in Hf as (rel & Hne & -> & [c Hc]); [| done].
  destruct (well_formed_resolve _ _ _ Hwfn Hc) as [_ Hrel].
  by exists rel. }
eapply for_each_NoDup; [| | exact Hsel].
- unfold rglob. destruct (resolve fs root) as [n |] eqn:Hn; [| constructor].
  apply walk_NoDup. by destruct (well_formed_resolve _ _ _ Hwf Hn).
- intros f1 f2 [a1 r1] [a2 r2] Hf1 Hf2 Hb1 Hb2 Hkey. simpl in Hkey.
  apply select_source_Some in Hb1 as (_ & -> & _).
  apply select_source_Some in Hb2 as (_ & -> & _).
  destruct (Hbelow _ Hf1) as (rel1 & Hn1 & -> & Hs1).
  destruct (Hbelow _ Hf2) as (rel2 & Hn2 & -> & Hs2).
  f_equal. by apply (as_posix_inj root).
Qed.

(** X4: when a component of the project root's own path is in the
  exclusion set, nothing is listed: the loop tests the parts of the
  absolute path, not of the path below the root. *)
Theorem X4_excluded_checkout_lists_nothing fs part :
part ∈ root -> part ∈ IGNORED_PARTS ->
select_source_files root fs = Ok [].
Proof.
intros Hin Hign. unfold select_source_files. apply for_each_all_None.
intros f Hf. rewrite application_path_eq, rglob_walk_below in Hf.
apply list_elem_of_fmap in Hf as (rel & -> & _).
by eapply select_source_excluded_root.
Qed.

End SelectMore.

(** ** The archive loop *)



(** What [zipf.write] does with a regular file depends on its time
    stamp alone. *)
Lemma ZipFile_write_File n p arcname st data :
  resolve n p = Some (File st data) ->
  ZipFile_write n p arcname
  = if stamp_ok st then
      Ok {| filename := pathlib.rel_as_posix arcname;
            date_time := st_mtime st;
            external_attr := Z.shiftl (Z.land (st_mode st) 65535) 16;
            compress_type := ZIP_DEFLATED;
            file_data := data |}
    else if (tm_year (st_mtime st) <? 1980)%Z then
      Raise (ValueError "ZIP does not support timestamps before 1980")
    else Raise (StructError "ushort format requires 0 <= number <= 65535").
Proof.
  intros Hres. unfold ZipFile_write, stamp_ok. rewrite Hres.
  destruct (tm_year (st_mtime st) <? 1980)%Z; [done |].
  by destruct (65535 <? dosdate (st_mtime st))%Z.
Qed.

Lemma archive_entry_cases n rel :
  archive_entry n rel
  = match resolve n rel with
    | Some (File st data) =>
        match ZipFile_write n rel rel with
        | Ok m => Ok (Some m)
        | Raise e => Raise e
        end
    | _ => Ok None
    end.
Proof.
  unfold archive_entry, is_file.
  by destruct (resolve n rel) as [[] |].
Qed.

Section ArchiveMore.

Variable root : Path.



(** X6: when [custom_environment] is missing, or is no directory, the
  loop finds nothing and the archive has no member; nothing is raised
  for it. *)
Theorem X6_no_environment_directory_empty_archive fs :
is_dir fs (env_dir root) = false ->
archive_members root fs = Ok [].
Proof.
intros Hdir. rewrite archive_members_subtree. unfold is_dir in Hdir.
by destruct (resolve fs (env_dir root)) as [[] |].
Qed.

(** X7: every member of the archive is a regular file below
  [custom_environment], deflated, with that file's modification time
  and the 16 low bits of its mode in the upper half of the external
  attributes. *)
Theorem X7_members_keep_time_and_mode fs zs :
archive_members root fs = Ok zs ->
forall m, m ∈ zs ->
  exists rel st,
    rel <> []
    /\ resolve fs (env_dir root ++ rel) = Some (File st (file_data m))
    /\ filename m = pathlib.rel_as_posix rel
    /\ date_time m = st_mtime st
    /\ external_attr m = (Z.land (st_mode st) 65535 * 65536)%Z
    /\ compress_type m = ZIP_DEFLATED
    /\ stamp_ok st = true.
Proof.
rewrite archive_members_subtree.
destruct (resolve fs (env_dir root)) as [n |] eqn:Hn; simpl;
  [| by intros [= <-] m ?%elem_of_nil].
intros Hzs m Hm.
apply (for_each_elem _ _ _ _ Hzs) in Hm as (rel & Hrel & Hbody).
apply walk_prefix in Hrel as (r & Hne & ->). simpl in Hbody.
rewrite archive_entry_cases in Hbody.
destruct (resolve n r) as [[st data | |] |] eqn:Hres; try done.
rewrite (ZipFile_write_File _ _ _ _ _ Hres) in Hbody.
destruct (stamp_ok st) eqn:Hok;
  [| by destruct (tm_year (st_mtime st) <? 1980)%Z].
injection Hbody as <-. exists r, st. simpl.
split_and!; try done.
- by rewrite resolve_app, Hn.
- by rewrite Z.shiftl_mul_pow2.
Qed.

End ArchiveMore.

(** ** What the run leaves of the file system *)








Lemma string_app_neq (s t t' : string) :
  t <> t' -> (s ++ t)%string <> (s ++ t')%string.
Proof. intros Hne Heq. by apply Hne, (string_app_inv_head s). Qed.

Section RunMore.

Variable root : Path.
Variables PROJECT_NAME CPU_8XL_id : string.
Variable zip_bytes : list ZipMember -> list byte.
Variable sha256_hexdigest : list byte -> string.
Variable fresh_stat : stat_result.



End RunMore.

(** ** The declarations, together *)

Section Declarations.

Variable root : Path.
Variables PROJECT_NAME CPU_8XL_id : string.
Variable zip_bytes : list ZipMember -> list byte.
Variable sha256_hexdigest : list byte -> string.
Variable fresh_stat : stat_result.
Variable engine : list Resource -> Resource -> option exn.

(** X10: whatever the project is called, the three resources have
  three different names and the seven outputs seven different keys;
  a declaration is given outputs of resources declared before it
  only, and every stack output is one of a declared resource. *)
Theorem X10_declarations_are_consistent fs0 g w :
run root PROJECT_NAME CPU_8XL_id zip_bytes sha256_hexdigest fresh_stat
    engine fs0 = Ok (g, w) ->
NoDup (map resource_name_of (registered w))
/\ NoDup (map fst (stack_outputs w))
/\ (forall before r after,
      registered w = before ++ r :: after ->
      forall n, n ∈ references r -> n ∈ map resource_name_of before)
/\ (forall key o,
      (key, o) ∈ stack_outputs w ->
      of_resource o ∈ map resource_name_of (registered w)).
Proof.
intros (_ & _ & _ & _ & _ & _ & _ & _ & Hreg & Hout)%run_Ok.
rewrite Hreg, Hout. unfold exe_env_decl, app_source_decl, app_decl. simpl.
assert (("[" ++ PROJECT_NAME ++ "]-exe-env")%string
        <> ("[" ++ PROJECT_NAME ++ "]-app-source")%string) as H12
  by (by do 2 apply string_app_neq).
assert (("[" ++ PROJECT_NAME ++ "]-exe-env")%string
        <> ("[" ++ PROJECT_NAME ++ "]-app")%string) as H13
  by (by do 2 apply string_app_neq).
assert (("[" ++ PROJECT_NAME ++ "]-app-source")%string
        <> ("[" ++ PROJECT_NAME ++ "]-app")%string) as H23
  by (by do 2 apply string_app_neq).
split_and!.
- repeat (apply NoDup_cons; split); [| | | constructor];
    rewrite ?elem_of_cons, elem_of_nil; tauto.
- apply (bool_decide_unpack _). by vm_compute.
- intros before r after Heq n Hn.
  destruct before as [| r1 [| r2 [| r3 before]]];
    simpl in Heq; simplify_eq; simpl in *;
    repeat (apply elem_of_cons in Hn as [-> | Hn]);
    try (by apply elem_of_nil in Hn); try (by destruct before);
    rewrite !elem_of_cons; tauto.
- intros key o Hin.
  repeat (apply elem_of_cons in Hin as [[= -> ->] | Hin]);
    try (by apply elem_of_nil in Hin); simpl;
    rewrite !elem_of_cons; tauto.
Qed.

End Declarations.

(** ** Layout *)

Lemma same_layout_cons e es e' es' :
  same_layout (Dir (e :: es)) (Dir (e' :: es'))
  = String.eqb (fst e) (fst e') && same_layout (snd e) (snd e')
    && same_layout (Dir es) (Dir es').
Proof. reflexivity. Qed.

Lemma same_layout_refl n : same_layout n n = true.
Proof.
  induction n as [st data | es IH | ] using node_tree_ind; [done | | done].
  induction es as [| e es IHes]; [done |].
  apply Forall_cons in IH as [He IH].
  by rewrite same_layout_cons, String.eqb_refl, He, IHes.
Qed.

Lemma same_layout_scan es : forall es' x,
  same_layout (Dir es) (Dir es') = true ->
  match scan x es, scan x es' with
  | Some c, Some c' => same_layout c c' = true
  | None, None => True
  | _, _ => False
  end.
Proof.
  induction es as [| [k v] es IH]; intros [| [k' v'] es'] x; try done.
  rewrite same_layout_cons. simpl.
  intros [[Hk Hv]%andb_true_iff Hes]%andb_true_iff.
  apply String.eqb_eq in Hk as ->.
  destruct (String.eqb k' x); [done | by apply IH].
Qed.

Lemma same_layout_resolve p : forall a b,
  same_layout a b = true ->
  match resolve a p, resolve b p with
  | Some c, Some c' => same_layout c c' = true
  | None, None => True
  | _, _ => False
  end.
Proof.
  induction p as [| x p IH]; intros a b Hab; [done |].
  destruct a as [| es |], b as [| es' |]; try done. simpl.
  pose proof (same_layout_scan es es' x Hab) as Hscan.
  destruct (scan x es) as [c |], (scan x es') as [c' |]; try done.
  by apply IH.
Qed.

Lemma same_layout_is_file a b p :
  same_layout a b = true -> is_file a p = is_file b p.
Proof.
  intros Hab. unfold is_file.
  pose proof (same_layout_resolve p a b Hab) as H.
  by destruct (resolve a p) as [[] |], (resolve b p) as [[] |].
Qed.

Lemma same_layout_walk a : forall b p,
  same_layout a b = true -> walk p a = walk p b.
Proof.
  induction a as [st data | es IH | ] using node_tree_ind;
    intros [| es' |] p Hab; try done.
  rewrite !walk_Dir.
  assert (map (fun e => p // fst e) es = map (fun e => p // fst e) es'
          /\ flat_map (fun e => walk (p // fst e) (snd e)) es
             = flat_map (fun e => walk (p // fst e) (snd e)) es') as [-> ->];
    [| done].
  revert es' Hab.
  induction es as [| [k v] es IHes]; intros [| [k' v'] es'] Hab; try done.
  rewrite same_layout_cons in Hab.
  apply andb_true_iff in Hab as [[Hk Hv]%andb_true_iff Hes].
  apply String.eqb_eq in Hk. simpl in Hk, Hv. subst k'.
  apply Forall_cons in IH as [IHv IH].
  destruct (IHes IH es' Hes) as [Hnames Hsubs]. simpl in *.
  by rewrite Hnames, Hsubs, (IHv v' (p // k) Hv).
Qed.

Lemma same_layout_put x c c' es :
  scan x es = Some c -> same_layout c c' = true ->
  same_layout (Dir es) (Dir (put x c' es)) = true.
Proof.
  intros Hscan Hcc'. induction es as [| [k v] es IH]; [done |].
  simpl in Hscan. simpl put.
  destruct (String.eqb_spec k x) as [-> | Hne].
  - injection Hscan as ->.
    rewrite same_layout_cons. cbn [fst snd].
    by rewrite String.eqb_refl, Hcc', (same_layout_refl (Dir es)).
  - rewrite same_layout_cons. cbn [fst snd].
    by rewrite String.eqb_refl, same_layout_refl, (IH Hscan).
Qed.

(** Writing over a regular file changes no name and no kind. *)
Lemma write_at_same_layout whole t : forall n st data n',
  write_at whole n t st data = Ok n' ->
  is_file n t = true ->
  same_layout n n' = true.
Proof.
  induction t as [| x t IH]; intros n st data n' Hw Hfile;
    apply write_at_Ok in Hw
      as (es & y & -> & [(Ht & -> & _) | (t' & c & c' & Ht & Hne & Hscan & Hw & ->)]);
    try done.
  - injection Ht as -> ->. unfold is_file in Hfile. simpl in Hfile.
    destruct (scan y es) as [[st0 d0 | |] |] eqn:Hscan; try done.
    by eapply same_layout_put.
  - injection Ht as -> ->. unfold is_file in Hfile. simpl in Hfile.
    rewrite Hscan in Hfile.
    eapply same_layout_put; [exact Hscan |].
    eapply IH; [exact Hw | exact Hfile].
Qed.

Section Layout.

Variable root : Path.

Lemma select_source_files_layout fsA fsB :
same_layout fsA fsB = true ->
select_source_files root fsA = select_source_files root fsB.
Proof.
intros Hab. unfold select_source_files, rglob.
pose proof (same_layout_resolve (application_path root) fsA fsB Hab) as Hres.
destruct (resolve fsA (application_path root)) as [a |],
         (resolve fsB (application_path root)) as [b |]; try done.
rewrite (same_layout_walk a b _ Hres). apply for_each_ext.
intros f _. unfold select_source.
by rewrite (same_layout_is_file fsA fsB f Hab).
Qed.

(** X11: the source file list depends on the names and kinds of what
  is on the disk, in listing order, and on nothing else: two disks
  with the same layout give the same list, whatever the files hold
  and whenever they were modified. *)
Theorem X11_source_files_follow_the_layout fsA fsB :
same_layout fsA fsB = true ->
select_source_files root fsA = select_source_files root fsB.
Proof. apply select_source_files_layout. Qed.

End Layout.

(** ** Running again *)

Section Again.

Variable root : Path.
Variables PROJECT_NAME CPU_8XL_id : string.
Variable zip_bytes : list ZipMember -> list byte.
Variable sha256_hexdigest : list byte -> string.

(** X12: a second run on the disk the first one left, at another time
  and with whatever engine, produces the same archive members, the
  same hash and the same source file list, and so declares the same
  three resources and the same outputs. *)
Theorem X12_second_run_declares_the_same
  st1 st2 engine1 engine2 fs0 g w g' w' :
run root PROJECT_NAME CPU_8XL_id zip_bytes sha256_hexdigest st1 engine1 fs0
  = Ok (g, w) ->
run root PROJECT_NAME CPU_8XL_id zip_bytes sha256_hexdigest st2 engine2
    (fs w) = Ok (g', w') ->
g' = g
/\ registered w' = registered w
/\ stack_outputs w' = stack_outputs w.
Proof.
intros (fs1 & Hopen & Hzs & Hclose & _ & Hpath & Hhash & Hsel & Hreg & Hout)%run_Ok
       (fs1' & Hopen' & Hzs' & Hclose' & _ & Hpath' & Hhash' & Hsel' & Hreg' & Hout')%run_Ok.
assert (zipf g' = zipf g) as Hzipf.
{ rewrite archive_members_subtree in Hzs, Hzs'.
  pose proof (env_dir_untouched _ _ _ _ _ [] Hopen') as H1.
  pose proof (env_dir_untouched _ _ _ _ _ [] Hclose) as H2.
  rewrite !app_nil_r in H1, H2. rewrite H1, H2, Hzs in Hzs'.
  by injection Hzs'. }
assert (source_files g' = source_files g) as Hfiles.
{ assert (is_file (fs w) (zip_path root) = true) as Hfile
    by (unfold is_file; by rewrite (write_file_resolve _ _ _ _ _ Hclose)).
  assert (is_file fs1' (zip_path root) = true) as Hfile'
    by (unfold is_file; by rewrite (write_file_resolve _ _ _ _ _ Hopen')).
  rewrite <- (select_source_files_layout root fs1' (fs w')),
    <- (select_source_files_layout root (fs w) fs1'), Hsel in Hsel'.
  - by injection Hsel'.
  - by eapply write_at_same_layout.
  - by eapply write_at_same_layout. }
assert (docker_context_hash g' = docker_context_hash g) as Hh
  by (by rewrite Hhash, Hhash', Hzipf).
split_and!.
- destruct g, g'. simpl in *. congruence.
- by rewrite Hreg, Hreg', Hh, Hfiles.
- by rewrite Hout, Hout', Hh, Hfiles.
Qed.

End Again.

(** ** Paths in the package *)

Section Package.

Variable root : Path.

(** X13: in a well-formed file system, two entries of the source file
  list for different files have the same path in the package only
  when that path is [build-app.sh] or [start-app.sh]. *)
Theorem X13_only_launchers_collide fs files a1 a2 r :
well_formed fs = true ->
select_source_files root fs = Ok files ->
(a1, r) ∈ files -> (a2, r) ∈ files -> a1 <> a2 ->
r = "build-app.sh" \/ r = "start-app.sh".
Proof.
intros Hwf Hsel H1 H2 Hne.
assert (forall a, (a, r) ∈ files ->
          (r = "build-app.sh" \/ r = "start-app.sh")
          \/ exists rel,
               rel <> [] /\ Forall (fun x => slash_free x = true) rel
               /\ a = pathlib.as_posix (root ++ rel)
               /\ r = String.concat "/" rel) as Hcase.
{ intros a Ha.
  apply (for_each_elem _ _ _ _ Hsel) in Ha as (f & Hf & Hbody).
  rewrite application_path_eq in Hf. unfold rglob in Hf.
  destruct (resolve fs root) as [n |] eqn:Hn; [| by apply elem_of_nil in Hf].
  destruct (well_formed_resolve _ _ _ Hwf Hn) as [Hwfn _].
  apply walk_sound in Hf as (rel & Hrel & -> & [c Hc]); [| done].
  destruct (well_formed_resolve _ _ _ Hwfn Hc) as [_ Hfree].
  apply select_source_Some in Hbody
    as (_ & -> & _ & _ & [[Hname ->] | (Hname & rel' & Hrel' & ->)]).
  - left. by apply launcher_scripts_elem.
  - right. rewrite relative_to_app in Hrel'. injection Hrel' as <-.
    exists rel. split_and!; try done. by destruct rel. }
destruct (Hcase a1 H1) as [Hl | (rel1 & Hn1 & Hf1 & -> & Hr1)];
  [done |].
destruct (Hcase a2 H2) as [Hl | (rel2 & Hn2 & Hf2 & -> & Hr2)];
  [done |].
exfalso. apply Hne. f_equal. f_equal.
apply concat_slash_inj; [done .. |]. by rewrite <- Hr1, <- Hr2.
Qed.

End Package.

(** ** The further properties at the sample disks *)

(** The source file list of the sample project, as the run found it. *)
Lemma X2_source_files_exactly_witness :
  select_source_files Sample.root (fs Sample.final_world)
  = Ok (source_files Sample.final_globals)
  /\ (("/home/dev/VideoLM/server/app.py", "server/app.py")
      ∈ source_files Sample.final_globals
      <-> exists rel,
            rel <> []
            /\ is_file (fs Sample.final_world) (Sample.root ++ rel) = true
            /\ (forall part,
                  part ∈ pathlib.parts (Sample.root ++ rel) ->
                  part ∉ IGNORED_PARTS)
            /\ "/home/dev/VideoLM/server/app.py"
               = pathlib.as_posix (Sample.root ++ rel)
            /\ (((pathlib.name (Sample.root ++ rel) = "build-app.sh"
                  \/ pathlib.name (Sample.root ++ rel) = "start-app.sh")
                 /\ "server/app.py" = pathlib.name (Sample.root ++ rel))
                \/ (pathlib.name (Sample.root ++ rel) <> "build-app.sh"
                    /\ pathlib.name (Sample.root ++ rel) <> "start-app.sh"
                    /\ ("infra" ∉ pathlib.parts (Sample.root ++ rel))
                    /\ "server/app.py" = pathlib.rel_as_posix rel))).
Proof.
  split; [vm_compute; reflexivity |].
  apply (X2_source_files_exactly Sample.root (fs Sample.final_world)
           (source_files Sample.final_globals)).
  vm_compute. reflexivity.
Defined.

(** No file of the sample project is listed twice. *)
Lemma X3_source_files_listed_once_witness :
  well_formed (fs Sample.final_world) = true
  /\ select_source_files Sample.root (fs Sample.final_world)
     = Ok (source_files Sample.final_globals)
  /\ NoDup (map fst (source_files Sample.final_globals)).
Proof.
  split; [vm_compute; reflexivity |].
  split; [vm_compute; reflexivity |].
  apply (X3_source_files_listed_once Sample.root (fs Sample.final_world)
           (source_files Sample.final_globals)).
  - vm_compute. reflexivity.
  - vm_compute. reflexivity.
Defined.

(** Checked out below a directory called [dist], the sample project
    lists nothing. *)
Lemma X4_excluded_checkout_lists_nothing_witness :
  "dist" ∈ Checkout.root
  /\ "dist" ∈ IGNORED_PARTS
  /\ select_source_files Checkout.root Checkout.disk = Ok [].
Proof.
  assert ("dist" ∈ Checkout.root) as H1
    by (apply (bool_decide_unpack _); vm_compute; exact I).
  assert ("dist" ∈ IGNORED_PARTS) as H2
    by (apply (bool_decide_unpack _); vm_compute; exact I).
  split; [exact H1 |]. split; [exact H2 |].
  exact (X4_excluded_checkout_lists_nothing Checkout.root Checkout.disk
           "dist" H1 H2).
Defined.


(** Without a [custom_environment] directory the archive is empty. *)
Lemma X6_no_environment_directory_empty_archive_witness :
  is_dir Checkout.bare_disk (env_dir Sample.root) = false
  /\ archive_members Sample.root Checkout.bare_disk = Ok [].
Proof.
  split; [vm_compute; reflexivity |].
  apply (X6_no_environment_directory_empty_archive Sample.root
           Checkout.bare_disk).
  vm_compute. reflexivity.
Defined.

(** The members of the sample archive. *)
Lemma X7_members_keep_time_and_mode_witness :
  archive_members Sample.root (Sample.disk Sample.noon)
  = Ok (zipf Sample.final_globals)
  /\ forall m, m ∈ zipf Sample.final_globals ->
       exists rel st,
         rel <> []
         /\ resolve (Sample.disk Sample.noon) (env_dir Sample.root ++ rel)
            = Some (File st (file_data m))
         /\ filename m = pathlib.rel_as_posix rel
         /\ date_time m = st_mtime st
         /\ external_attr m = (Z.land (st_mode st) 65535 * 65536)%Z
         /\ compress_type m = ZIP_DEFLATED
         /\ stamp_ok st = true.
Proof.
  split; [vm_compute; reflexivity |].
  apply (X7_members_keep_time_and_mode Sample.root (Sample.disk Sample.noon)
           (zipf Sample.final_globals)).
  vm_compute. reflexivity.
Defined.



(** The declarations of the sample run. *)
Lemma X10_declarations_are_consistent_witness :
  Sample.deploy Sample.noon = Ok (Sample.final_globals, Sample.final_world)
  /\ NoDup (map resource_name_of (registered Sample.final_world))
  /\ NoDup (map fst (stack_outputs Sample.final_world)).
Proof.
  split; [vm_compute; reflexivity |].
  destruct (X10_declarations_are_consistent Sample.root "videolm" "cpu.8xlarge"
              Sample.toy_zip_bytes Sample.toy_digest (Sample.st Sample.later)
              Sample.accept (Sample.disk Sample.noon)
              Sample.final_globals Sample.final_world)
    as (Hnames & Hkeys & _).
  - vm_compute. reflexivity.
  - split; [exact Hnames | exact Hkeys].
Defined.

(** The sample project modified at noon and half an hour later. *)
Lemma X11_source_files_follow_the_layout_witness :
  same_layout (Sample.disk Sample.noon) (Sample.disk Sample.later) = true
  /\ select_source_files Sample.root (Sample.disk Sample.noon)
     = select_source_files Sample.root (Sample.disk Sample.later).
Proof.
  split; [vm_compute; reflexivity |].
  apply (X11_source_files_follow_the_layout Sample.root
           (Sample.disk Sample.noon) (Sample.disk Sample.later)).
  vm_compute. reflexivity.
Defined.

(** The sample project deployed twice. *)
Lemma X12_second_run_declares_the_same_witness :
  Sample.deploy Sample.noon = Ok (Sample.final_globals, Sample.final_world)
  /\ Checkout.again = Ok (Checkout.again_globals, Checkout.again_world)
  /\ Checkout.again_globals = Sample.final_globals
  /\ registered Checkout.again_world = registered Sample.final_world
  /\ stack_outputs Checkout.again_world = stack_outputs Sample.final_world.
Proof.
  split; [vm_compute; reflexivity |].
  split; [vm_compute; reflexivity |].
  apply (X12_second_run_declares_the_same Sample.root "videolm" "cpu.8xlarge"
           Sample.toy_zip_bytes Sample.toy_digest
           (Sample.st Sample.later) (Sample.st Sample.noon)
           Sample.accept Sample.accept (Sample.disk Sample.noon)
           Sample.final_globals Sample.final_world
           Checkout.again_globals Checkout.again_world).
  - vm_compute. reflexivity.
  - vm_compute. reflexivity.
Defined.

(** The two launcher scripts of the sample project share a path in the
    package, and it is [build-app.sh]. *)
Lemma X13_only_launchers_collide_witness :
  well_formed (fs Sample.final_world) = true
  /\ select_source_files Sample.root (fs Sample.final_world)
     = Ok (source_files Sample.final_globals)
  /\ ("/home/dev/VideoLM/infra/build-app.sh", "build-app.sh")
     ∈ source_files Sample.final_globals
  /\ ("/home/dev/VideoLM/server/build-app.sh", "build-app.sh")
     ∈ source_files Sample.final_globals
  /\ "/home/dev/VideoLM/infra/build-app.sh"
     <> "/home/dev/VideoLM/server/build-app.sh"
  /\ ("build-app.sh" = "build-app.sh" \/ "build-app.sh" = "start-app.sh").
Proof.
  assert (("/home/dev/VideoLM/infra/build-app.sh", "build-app.sh")
          ∈ source_files Sample.final_globals) as H1
    by (apply (bool_decide_unpack _); vm_compute; exact I).
  assert (("/home/dev/VideoLM/server/build-app.sh", "build-app.sh")
          ∈ source_files Sample.final_globals) as H2
    by (apply (bool_decide_unpack _); vm_compute; exact I).
  assert ("/home/dev/VideoLM/infra/build-app.sh"
          <> "/home/dev/VideoLM/server/build-app.sh") as H3 by discriminate.
  split; [vm_compute; reflexivity |]. split; [vm_compute; reflexivity |].
  split; [exact H1 |]. split; [exact H2 |]. split; [exact H3 |].
  apply (X13_only_launchers_collide Sample.root (fs Sample.final_world)
           (source_files Sample.final_globals)
           "/home/dev/VideoLM/infra/build-app.sh"
           "/home/dev/VideoLM/server/build-app.sh" "build-app.sh").
  - vm_compute. reflexivity.
  - vm_compute. reflexivity.
  - exact H1.
  - exact H2.
  - exact H3.
Defined.
